(** * SIRNet forecasting pipeline ([scripts/fit_bexar_mask.py])

    A shallow embedding of [load_data], [model_and_fit], [forecast] and the
    calibration loop of [pipeline], with the properties the specification
    states about them.

    Numbers.  numpy and torch compute in binary floating point; here every
    real quantity is an exact canonical rational ([Qc]), so that Leibniz
    equality is numeric equality (which is how Python compares the floats it
    uses as dictionary keys).  Rounding, infinities and NaN are outside the
    model, and [astype(np.float32)] is the identity.  Division is total as in
    numpy, where dividing by zero does not raise; no statement below depends
    on the value of a quotient whose divisor is zero. *)

From Stdlib Require Import ZArith QArith Qcanon List Lia Permutation.
From Stdlib Require Import Floats.PrimFloat.
From stdpp Require Import base numbers list option gmap strings pretty.

Local Open Scope Z_scope.

(** ** Python values and exceptions *)

Module Py.

(** The exceptions that the modelled statements can raise. *)
Inductive exn : Type :=
| KeyError      (* pandas label lookup on a missing label *)
| IndexError    (* numpy / list index out of bounds *)
| ValueError    (* np.max / np.argmax of an empty array *)
| RuntimeError. (* torch expand with a negative size *)

Inductive result (A : Type) : Type :=
| Ok (a : A)
| Raise (e : exn).
Arguments Ok {A} a.
Arguments Raise {A} e.

#[global] Instance result_ret : MRet result := @Ok.
#[global] Instance result_bind : MBind result := fun A B f m =>
  match m with
  | Ok a => f a
  | Raise e => Raise e
  end.

#[global] Instance exn_eq_dec : EqDecision exn.
Proof. solve_decision. Defined.

(** The bound [i] of a slice [l[i:]] or [l[:i]] on a sequence of length
    [n]: a negative bound counts from the end, and the outcome is clamped
    to [0 .. n]. *)
Definition slice_index (n : nat) (i : Z) : nat :=
  Z.to_nat (if i <? 0 then Z.max 0 (Z.of_nat n + i) else Z.min i (Z.of_nat n)).

(** [l[i:]] *)
Definition slice_from {A} (i : Z) (l : list A) : list A :=
  drop (slice_index (length l) i) l.

(** [l[:i]] *)
Definition slice_to {A} (i : Z) (l : list A) : list A :=
  take (slice_index (length l) i) l.

(** [s[i]] on a pandas Series that carries the default integer range
    index: the key is a label, so anything outside [0 .. len-1] is a
    KeyError (a negative key does not count from the end). *)
Definition loc {A} (s : list A) (i : Z) : result A :=
  if i <? 0 then Raise KeyError
  else match s !! Z.to_nat i with
       | Some x => Ok x
       | None => Raise KeyError
       end.

(** [l[i]] on a Python list with a non-negative index. *)
Definition item {A} (l : list A) (i : nat) : result A :=
  match l !! i with
  | Some x => Ok x
  | None => Raise IndexError
  end.

(** [a[-1] = x] on a one-dimensional array. *)
Definition set_last {A} (x : A) (l : list A) : result (list A) :=
  match l with
  | [] => Raise IndexError
  | _ :: _ => Ok (<[Nat.pred (length l) := x]> l)
  end.

(** [a[-1][-1] = x] on a two-dimensional array: [a[-1]] is a view of the
    last row, whose last entry is then assigned. *)
Definition set_last_last {A} (x : A) (a : list (list A)) : result (list (list A)) :=
  match last a with
  | None => Raise IndexError
  | Some row =>
      row' ← set_last x row;
      Ok (<[Nat.pred (length a) := row']> a)
  end.

(** [a[:, :k] = f(a[:, :k])] for an elementwise [f]. *)
Definition map_cols_to {A} (k : nat) (f : A -> A) (a : list (list A)) : list (list A) :=
  (fun row => (f <$> take k row) ++ drop k row) <$> a.

(** [a[i:, j] = x]: column [j] of every row from the slice bound [i] on. *)
Definition set_col_from {A} (i : Z) (j : nat) (x : A) (a : list (list A)) : list (list A) :=
  take (slice_index (length a) i) a ++ (<[j := x]> <$> drop (slice_index (length a) i) a).

(** [a[:, j] = x] *)
Definition set_col {A} (j : nat) (x : A) (a : list (list A)) : list (list A) :=
  <[j := x]> <$> a.

End Py.
Import Py.

Local Open Scope Qc_scope.

(** ** Data model *)

(** One row of the frame that [retrieve_data.get_data] returns: the date
    string, the six mobility columns in the order of [MOBILITY_KEYS], the
    case count and the population. *)
Record RawDailyRecord : Type := {
  date : string;
  retail_recreation : Qc;
  grocery_pharmacy : Qc;
  parks : Qc;
  transit_stations : Qc;
  workplace : Qc;
  residential : Qc;
  Cases : Z;
  Population : Z
}.

Abbreviation DataFrame := (list RawDailyRecord).

(** [df[MOBILITY_KEYS]]: one row of six columns per day. *)
Definition MOBILITY_KEYS (r : RawDailyRecord) : list Qc :=
  [retail_recreation r; grocery_pharmacy r; parks r;
   transit_stations r; workplace r; residential r].

(** The command-line configuration ([argparse] namespace). *)
Record Params : Type := {
  weights_dir : option string;
  country : string;
  state : string;
  county : string;
  forecast_days : Z;
  reporting_rates : list Qc;
  mobility_cases : list Qc;
  n_epochs : Z;
  lr_step_size : Z;
  delay_days : Z;
  start_model : Z;
  incubation_days : Z;
  estimated_r0 : Qc;
  mask_modifier : bool;
  mask_day : Z
}.

(** The argument of [retrieve_data.get_data]. *)
Record ParamDict : Type := {
  pd_country : string;
  pd_states : list string;
  pd_counties : list string
}.

(** What [load_data] returns. *)
Record Loaded : Type := {
  mobility : list (list Qc);
  cases : list Z;
  day0 : string;
  population : Z;
  prev_cases : Z
}.

(** ** load_data *)

Section LoadData.

(** [retrieve_data.get_data] is a collaborator outside this file. *)
Variable get_data : ParamDict -> DataFrame.

Definition paramdict (params : Params) : ParamDict :=
  {| pd_country := country params;
     pd_states := [state params];
     pd_counties := [county params] |}.

(** The statements of [load_data] from line 71 on, applied to the
    delay-trimmed mobility array. *)
Definition format_data (params : Params) (mobility : list (list Qc)) : list (list Qc) :=
  (* convert percentages of change to fractions of activity *)
  let mobility := map_cols_to 6 (fun x => 1 + x / Qc_of_Z 100) mobility in
  (* turn the last column into 1-hot social-distancing enforcement *)
  let mobility := set_col 5 0 mobility in
  let mobility :=
    if mask_modifier params then set_col_from (mask_day params) 5 1 mobility
    else mobility in
  (* start with delay *)
  slice_from (start_model params) mobility.

Definition load_data (params : Params) : result Loaded :=
  let df := get_data (paramdict params) in
  let mobility := MOBILITY_KEYS <$> df in
  let cases := Cases <$> df in
  population ← loc (Population <$> df) 0;
  let total_delay := (delay_days params + start_model params)%Z in
  day0 ← loc (date <$> df) total_delay;
  (* the previous number of cases after model delays *)
  prev_cases ← loc cases (total_delay - (if 0 <? total_delay then 1 else 0))%Z;
  (* offset case data by delay days *)
  let cases := slice_from (delay_days params) cases in
  let mobility := slice_to (- delay_days params)%Z mobility in
  (* line 70: mobility[-1][-1] = 17.0 *)
  mobility ← set_last_last (Qc_of_Z 17) mobility;
  let mobility := format_data params mobility in
  let cases := slice_from (start_model params) cases in
  Ok {| mobility := mobility; cases := cases; day0 := day0;
        population := population; prev_cases := prev_cases |}.

(** [load_data] with line 70 deleted and nothing else changed. *)
Definition load_data_without_override (params : Params) : result Loaded :=
  let df := get_data (paramdict params) in
  let mobility := MOBILITY_KEYS <$> df in
  let cases := Cases <$> df in
  population ← loc (Population <$> df) 0;
  let total_delay := (delay_days params + start_model params)%Z in
  day0 ← loc (date <$> df) total_delay;
  prev_cases ← loc cases (total_delay - (if 0 <? total_delay then 1 else 0))%Z;
  let cases := slice_from (delay_days params) cases in
  let mobility := slice_to (- delay_days params)%Z mobility in
  let mobility := format_data params mobility in
  let cases := slice_from (start_model params) cases in
  Ok {| mobility := mobility; cases := cases; day0 := day0;
        population := population; prev_cases := prev_cases |}.

End LoadData.

(** ** The simulator and the other collaborators *)

(** Sequences time x batch x channels, as the torch tensors of the source. *)
Abbreviation Tensor3 := (list (list (list Qc))).

(** [a.reshape(a.shape[0], 1, a.shape[1])]: add the batch dimension. *)
Definition add_batch (a : list (list Qc)) : Tensor3 := (fun row => [row]) <$> a.

(** [y.reshape(y.shape[0], 1, 1)] *)
Definition add_batch_channel (y : list Qc) : Tensor3 := (fun v => [[v]]) <$> y.

(** Modelled from the spec: one day of the state that the fitted model
    returns (the SIRNet package is not part of this file); the forward
    projection yields per-day compartment values, of which column 0 is the
    infectious and column 1 the removed fraction. *)
Record SIRState : Type := {
  infectious : Qc;
  removed : Qc
}.

(** The weights file of one calibration,
    [WEIGHTS_DIR/<dir>/<county_name>_report<rate>_weights.pt], kept as the
    three components that vary: the directory name, the county name and the
    reporting rate. *)
Record WeightsName : Type := {
  wn_dir : string;
  wn_county : string;
  wn_rate : Qc
}.

(** What the pipeline takes from outside this file: the data retrieval, the
    time stamp taken when the module is loaded, the SIRNet trainer and
    model, and the calendar of Python's [datetime]. *)
Class Collaborators : Type := {
  get_data : ParamDict -> DataFrame;
  timestamp : string;
  Model : Type;
  (* trainer.Trainer(weights_name).build_model(e0, i0) *)
  build_model : WeightsName -> Qc -> Qc -> Model;
  (* trnr.train(model, X, Y, iters, step_size): the model after the fit *)
  train : WeightsName -> Model -> Tensor3 -> Tensor3 -> Z -> Z -> Model;
  (* util.to_numpy(model(rX)[0]) *)
  run : Model -> Tensor3 -> list SIRState;
  Date : Type;
  (* dt.datetime(int(yy), int(mm), int(dd)) for yy, mm, dd = s.split('-') *)
  datetime : string -> result Date;
  (* date0 + dt.timedelta(days=d) *)
  plus_days : Date -> Z -> Date
}.

(** ** numpy reductions *)

(** [np.argmax] scans from the left and keeps the first maximum. *)
Fixpoint argmax_from (best_i : nat) (best : Qc) (i : nat) (l : list Qc) : nat :=
  match l with
  | [] => best_i
  | x :: l' =>
      if bool_decide (best < x) then argmax_from i x (S i) l'
      else argmax_from best_i best (S i) l'
  end.

Definition np_argmax (l : list Qc) : result nat :=
  match l with
  | [] => Raise ValueError
  | x :: l' => Ok (argmax_from 0%nat x 1%nat l')
  end.

Definition Qc_max (x y : Qc) : Qc := if bool_decide (x < y) then y else x.

Definition np_max (l : list Qc) : result Qc :=
  match l with
  | [] => Raise ValueError
  | x :: l' => Ok (foldl Qc_max x l')
  end.

(** ** ASCII strings *)

Definition ascii_lower (c : Ascii.ascii) : Ascii.ascii :=
  let n := Ascii.nat_of_ascii c in
  if bool_decide (65 <= n <= 90)%nat then Ascii.ascii_of_nat (n + 32) else c.

Fixpoint lower (s : string) : string :=
  match s with
  | EmptyString => EmptyString
  | String c s' => String (ascii_lower c) (lower s')
  end.

Definition endswith (s suffix : string) : bool :=
  let n := String.length s in
  let k := String.length suffix in
  bool_decide (k <= n)%nat && String.eqb (String.substring (n - k) k s) suffix.

(** [s[:-k]] for a positive [k]. *)
Definition drop_last (k : nat) (s : string) : string :=
  String.substring 0 (String.length s - k) s.

(** ** The pipeline *)

(** A dict from float keys to forecast series. *)
Abbreviation Forecasts := (gmap Qc (list Qc)).

Section Pipeline.

Context `{C : Collaborators}.

(** What a run shows to the outside: the calls of the trainer's fit with
    all their arguments, and the peak lines that [forecast] prints (case,
    maximum, day index, date).  The constant banner lines are left out. *)
Inductive Event : Type :=
| Fit (weights_name : WeightsName) (e0 i0 : Qc) (X Y : Tensor3) (iters step_size : Z)
| Peak (case : Qc) (M : Qc) (idx : nat) (day : Date).

(** A computation that appends to the trace and returns or raises; what was
    traced before an exception stays traced. *)
Record Run (A : Type) : Type := mkRun {
  trace : list Event;
  outcome : result A
}.
Arguments mkRun {A} trace outcome.
Arguments trace {A} _.
Arguments outcome {A} _.

#[global] Instance Run_ret : MRet Run := fun A a => mkRun [] (Ok a).
#[global] Instance Run_bind : MBind Run := fun A B f m =>
  match outcome m with
  | Ok a => mkRun (trace m ++ trace (f a)) (outcome (f a))
  | Raise e => mkRun (trace m) (Raise e)
  end.

Definition emit (ev : Event) : Run unit := mkRun [ev] (Ok tt).
Definition lift {A} (r : result A) : Run A := mkRun [] r.

(** [for x in l: s = body(x, s)] *)
Fixpoint for_each {A S} (l : list A) (body : A -> S -> Run S) (s : S) : Run S :=
  match l with
  | [] => mret s
  | x :: l' => s' ← body x s; for_each l' body s'
  end.

(** *** model_and_fit *)

Definition model_and_fit (weights_name : WeightsName) (X Y : Tensor3)
    (scale_factor : Qc) (prev_cases : Z) (params : Params) : Run Model :=
  (* initial conditions *)
  let i0 := Qc_of_Z prev_cases / scale_factor in
  let e0 := estimated_r0 params * i0 / Qc_of_Z (incubation_days params) in
  let trnr := weights_name in
  let model := build_model trnr e0 i0 in
  emit (Fit trnr e0 i0 X Y (n_epochs params) (lr_step_size params));;
  mret (train trnr model X Y (n_epochs params) (lr_step_size params)).

(** *** forecast *)

(** Lines 133-136: the constant block of [forecast_days] days appended to
    the history [X]. *)
Definition scenario_cat (X : Tensor3) (params : Params) (case : Qc) : result Tensor3 :=
  let xN := [replicate 6 (1 * case / Qc_of_Z 100)] in
  let xN := alter (<[5%nat := 0]>) 0%nat xN in
  if (forecast_days params <? 0)%Z then Raise RuntimeError
  else
    let rX := replicate (Z.to_nat (forecast_days params)) xN in
    Ok (X ++ rX).

(** Lines 137-138: [rX[mask_day:, 0, 5] = 1.0] when mask-modeling is on. *)
Definition mask_overwrite (params : Params) (rX : Tensor3) : Tensor3 :=
  if mask_modifier params then
    take (slice_index (length rX) (mask_day params)) rX
    ++ (alter (<[5%nat := 1]>) 0%nat <$> drop (slice_index (length rX) (mask_day params)) rX)
  else rX.

(** The trajectory handed to the model for one mobility case. *)
Definition scenario_input (X : Tensor3) (params : Params) (case : Qc) : result Tensor3 :=
  rX ← scenario_cat X params case;
  Ok (mask_overwrite params rX).

(** Lines 145-149: the reporting of one case. *)
Definition report_peak (case : Qc) (active : list Qc) (dates : list Date) : Run unit :=
  M ← lift (np_max active);
  idx ← lift (np_argmax active);
  day ← lift (item dates idx);
  emit (Peak case M idx day).

(** Lines 133-149: the body of the loop over the mobility cases, on the
    two dicts built so far. *)
Definition forecast_case (X : Tensor3) (model : Model) (dates : list Date)
    (scale_factor : Qc) (params : Params) (case : Qc)
    (dicts : Forecasts * Forecasts) : Run (Forecasts * Forecasts) :=
  let '(active, total) := dicts in
  rX ← lift (scenario_input X params case);
  let s := run model rX in
  let active_case := (fun d => infectious d * scale_factor) <$> s in
  let total_case := (fun d => (infectious d + removed d) * scale_factor) <$> s in
  let active := <[case := active_case]> active in
  let total := <[case := total_case]> total in
  report_peak case active_case dates;;
  mret (active, total).

Definition forecast (X : Tensor3) (model : Model) (dates : list Date)
    (scale_factor : Qc) (params : Params) : Run (Forecasts * Forecasts) :=
  for_each (mobility_cases params) (forecast_case X model dates scale_factor params) (∅, ∅).

(** *** pipeline *)

Definition county_name (params : Params) : string :=
  if endswith (lower (county params)) " county"
  then drop_last (String.length " county") (county params)
  else county params.

Definition weights_dir_base (params : Params) : string :=
  match weights_dir params with
  | Some d => if String.eqb d "" then timestamp else d
  | None => timestamp
  end.

(** Lines 271-300: what the loop does for one reporting rate. *)
Definition calibrate_and_forecast (params : Params) (loaded : Loaded)
    (dates : list Date) (reporting_rate : Qc) : Run (Forecasts * Forecasts) :=
  (* split into input and output data *)
  let X := mobility loaded in
  let Y := cases loaded in
  (* divide out population of county, reporting rate *)
  let scale_factor := Qc_of_Z (population loaded) * reporting_rate in
  let Y := (fun c => Qc_of_Z c / scale_factor) <$> Y in
  (* add batch dimension *)
  let X := add_batch X in
  let Y := add_batch_channel Y in
  let weights_name :=
    {| wn_dir := weights_dir_base params;
       wn_county := county_name params;
       wn_rate := reporting_rate |} in
  model ← model_and_fit weights_name X Y scale_factor (prev_cases loaded) params;
  forecast X model dates scale_factor params.

(** Lines 268-300: the body of the loop over the reporting rates, on the
    two dicts built so far. *)
Definition pipeline_rate (params : Params) (loaded : Loaded) (dates : list Date)
    (reporting_rate : Qc) (dicts : gmap Qc Forecasts * gmap Qc Forecasts)
    : Run (gmap Qc Forecasts * gmap Qc Forecasts) :=
  let '(actives, totals) := dicts in
  '(active, total) ← calibrate_and_forecast params loaded dates reporting_rate;
  mret (<[reporting_rate := active]> actives, <[reporting_rate := total]> totals).

(** The pipeline up to the call of [plot] (rendering is not modelled): the
    two dicts, keyed by reporting rate, that are handed to it. *)
Definition pipeline (params : Params)
    : Run (gmap Qc Forecasts * gmap Qc Forecasts) :=
  loaded ← lift (load_data get_data params);
  (* dates used in forecasting *)
  date0 ← lift (datetime (day0 loaded));
  let days := seq 0 (Z.to_nat (Z.of_nat (length (mobility loaded)) + forecast_days params)) in
  let dates := (fun d => plus_days date0 (Z.of_nat d)) <$> days in
  for_each (reporting_rates params) (pipeline_rate params loaded dates) (∅, ∅).

End Pipeline.

Arguments mkRun {C A} trace outcome.
Arguments trace {C A} _.
Arguments outcome {C A} _.

(** ** Vocabulary of the statements *)

(** The mandate column (column 5) of a days x 6 array on day [t]. *)
Definition mandate (a : list (list Qc)) (t : nat) : option Qc :=
  row ← a !! t; row !! 5%nat.

(** The mandate channel of batch entry 0 of a trajectory on day [t]. *)
Definition mandate3 (rX : Tensor3) (t : nat) : option Qc :=
  batch ← rX !! t; row ← batch !! 0%nat; row !! 5%nat.

(** A days x 6 array. *)
Definition six_columns (a : list (list Qc)) : Prop :=
  Forall (λ row, length row = 6%nat) a.

(** Whether an outcome is the exception [e]. *)
Definition raises {A} (e : exn) (r : result A) : bool :=
  match r with
  | Ok _ => false
  | Raise e' => bool_decide (e' = e)
  end.

Definition total_delay (params : Params) : Z :=
  (delay_days params + start_model params)%Z.

(** The number of raw records of a run. *)
Definition raw_length (get_data : ParamDict -> DataFrame) (params : Params) : Z :=
  Z.of_nat (length (get_data (paramdict params))).

(** The same configuration with other reporting rates. *)
Definition with_reporting_rates (params : Params) (rates : list Qc) : Params :=
  {| weights_dir := weights_dir params; country := country params;
     state := state params; county := county params;
     forecast_days := forecast_days params;
     reporting_rates := rates;
     mobility_cases := mobility_cases params;
     n_epochs := n_epochs params; lr_step_size := lr_step_size params;
     delay_days := delay_days params; start_model := start_model params;
     incubation_days := incubation_days params;
     estimated_r0 := estimated_r0 params;
     mask_modifier := mask_modifier params; mask_day := mask_day params |}.

(** The date axis that [pipeline] computes. *)
Definition pipeline_dates `{C : Collaborators} (params : Params) (loaded : Loaded)
    (date0 : Date) : list Date :=
  (λ d, plus_days date0 (Z.of_nat d))
    <$> seq 0 (Z.to_nat (Z.of_nat (length (mobility loaded)) + forecast_days params)).

(** The calls of the fit in a trace. *)
Definition is_fit `{C : Collaborators} (ev : Event) : bool :=
  match ev with
  | Fit _ _ _ _ _ _ _ => true
  | Peak _ _ _ _ => false
  end.

Definition fits `{C : Collaborators} (tr : list Event) : list Event :=
  filter (λ ev, is_fit ev = true) tr.

(** The calibration quantities in the words of the specification (4.2):
    [ScaleFactor = population x ReportingRate], [Y = cases / ScaleFactor],
    [I0 = prevCases / ScaleFactor], [E0 = estimatedR0 x I0 / incubationDays]. *)
Module Spec.

Definition ScaleFactor (population : Z) (ReportingRate : Qc) : Qc :=
  Qc_of_Z population * ReportingRate.

Definition Y (cases : list Z) (ScaleFactor : Qc) : list Qc :=
  (λ c, Qc_of_Z c / ScaleFactor) <$> cases.

Definition I0 (prevCases : Z) (ScaleFactor : Qc) : Qc :=
  Qc_of_Z prevCases / ScaleFactor.

Definition E0 (estimatedR0 : Qc) (I0 : Qc) (incubationDays : Z) : Qc :=
  estimatedR0 * I0 / Qc_of_Z incubationDays.

(** The fit that the specification prescribes for one reporting rate. *)
Definition calibration `{C : Collaborators} (params : Params) (loaded : Loaded)
    (rate : Qc) : Event :=
  let sf := ScaleFactor (population loaded) rate in
  Fit {| wn_dir := weights_dir_base params;
         wn_county := county_name params;
         wn_rate := rate |}
      (E0 (estimated_r0 params) (I0 (prev_cases loaded) sf) (incubation_days params))
      (I0 (prev_cases loaded) sf)
      (add_batch (mobility loaded))
      (add_batch_channel (Y (cases loaded) sf))
      (n_epochs params) (lr_step_size params).

End Spec.

(** Lines 274 and 103 on IEEE binary64 numbers, which is what Python
    evaluates them on: the product and the quotient are the correctly
    rounded ones. *)
Module Binary64.

Definition scale_factor (population reporting_rate : float) : float :=
  (population * reporting_rate)%float.

Definition i0 (prev_cases scale_factor : float) : float :=
  (prev_cases / scale_factor)%float.

End Binary64.

(** A three-day frame and a configuration, for trying things out. *)
Definition day (d : string) (m : Z) (c : Z) : RawDailyRecord :=
  {| date := d;
     retail_recreation := Qc_of_Z m; grocery_pharmacy := Qc_of_Z m;
     parks := Qc_of_Z m; transit_stations := Qc_of_Z m;
     workplace := Qc_of_Z m; residential := Qc_of_Z m;
     Cases := c; Population := 1000000 |}.

Definition frame3 : DataFrame :=
  [day "2020-03-01" (-10) 40; day "2020-03-02" (-20) 50; day "2020-03-03" (-30) 70].

Definition frame6 : DataFrame :=
  frame3 ++
  [day "2020-03-04" (-40) 90; day "2020-03-05" (-40) 120; day "2020-03-06" (-45) 150].

Definition config (delay start : Z) (mask : bool) (mday : Z) : Params :=
  {| weights_dir := None; country := "United States"; state := "Texas";
     county := "Bexar County"; forecast_days := 2;
     reporting_rates := [Q2Qc (1 # 10)]; mobility_cases := [Qc_of_Z 50];
     n_epochs := 200; lr_step_size := 4000;
     delay_days := delay; start_model := start;
     incubation_days := 5; estimated_r0 := Q2Qc (22 # 10);
     mask_modifier := mask; mask_day := mday |}.


(** A toy simulator: the model remembers its initial conditions, the fit
    leaves it as it is, and the projection returns them on every day (the
    infectious fraction is [i0], the removed fraction is [e0] or 0 when [e0]
    is negative). *)
#[local] Instance toy (df : DataFrame) : Collaborators := {|
  get_data := fun _ => df;
  timestamp := "2020_06_01_12_00";
  Model := Qc * Qc;
  build_model := fun _ e0 i0 => (e0, i0);
  train := fun _ m _ _ _ _ => m;
  run := fun m rX => (fun _ => {| infectious := m.2; removed := Qc_max 0 m.1 |}) <$> rX;
  Date := string * Z;
  datetime := fun s => Ok (s, 0%Z);
  plus_days := fun d n => (d.1, (d.2 + n)%Z)
|}.

(** An active series with its only maximum on day 1, and four dates. *)
Definition toy_active : list Qc :=
  [Qc_of_Z 3; Qc_of_Z 9; (Qc_of_Z 9 / Qc_of_Z 2)%Qc; Qc_of_Z 8].

Definition toy_dates : list (@Date (toy frame3)) :=
  (λ d, ("2020-03-02", Z.of_nat d)) <$> seq 0 4.

(** The configuration that the argument parser yields when the script is
    run without arguments (lines 317-357). *)
Definition default_params : Params :=
  {| weights_dir := None; country := "United States"; state := "Texas";
     county := "Bexar County"; forecast_days := 200;
     reporting_rates := [Q2Qc (5 # 100); Q2Qc (1 # 10); Q2Qc (3 # 10)];
     mobility_cases := [Qc_of_Z 25; Qc_of_Z 50; Qc_of_Z 75; Qc_of_Z 100];
     n_epochs := 200; lr_step_size := 4000;
     delay_days := 10; start_model := 23;
     incubation_days := 5; estimated_r0 := Q2Qc (22 # 10);
     mask_modifier := false; mask_day := 65 |}.

(** A frame of [n] days: day [i] has every mobility column at [-i] percent
    and [10 * i] cases. *)
Definition frame_of_length (n : nat) : DataFrame :=
  (λ i, day ("2020-d" +:+ pretty i) (- Z.of_nat i) (10 * Z.of_nat i)) <$> seq 0 n.

(** The mobility case of a printed peak line. *)
Definition peak_case `{C : Collaborators} (ev : Event) : option Qc :=
  match ev with
  | Fit _ _ _ _ _ _ _ => None
  | Peak case _ _ _ => Some case
  end.

(** The mobility cases of the peak lines of a trace, in the order in which
    they were printed. *)
Definition peak_cases `{C : Collaborators} (tr : list Event) : list Qc :=
  omap peak_case tr.


(** The model that [pipeline] fits for one reporting rate (lines 271-293):
    built from the initial conditions of that rate and trained on the
    aligned mobility and the rescaled cases. *)
Definition fitted_model `{C : Collaborators} (params : Params) (loaded : Loaded)
    (reporting_rate : Qc) : Model :=
  let scale_factor := Qc_of_Z (population loaded) * reporting_rate in
  let weights_name :=
    {| wn_dir := weights_dir_base params;
       wn_county := county_name params;
       wn_rate := reporting_rate |} in
  let i0 := Qc_of_Z (prev_cases loaded) / scale_factor in
  let e0 := estimated_r0 params * i0 / Qc_of_Z (incubation_days params) in
  train weights_name (build_model weights_name e0 i0)
    (add_batch (mobility loaded))
    (add_batch_channel ((fun c => Qc_of_Z c / scale_factor) <$> cases loaded))
    (n_epochs params) (lr_step_size params).

(** The same configuration with another forecast horizon. *)
Definition with_forecast_days (params : Params) (n : Z) : Params :=
  {| weights_dir := weights_dir params; country := country params;
     state := state params; county := county params;
     forecast_days := n;
     reporting_rates := reporting_rates params;
     mobility_cases := mobility_cases params;
     n_epochs := n_epochs params; lr_step_size := lr_step_size params;
     delay_days := delay_days params; start_model := start_model params;
     incubation_days := incubation_days params;
     estimated_r0 := estimated_r0 params;
     mask_modifier := mask_modifier params; mask_day := mask_day params |}.

(** A peak line whose day index lies on a date axis of [n] days that starts
    at [date0], and whose date is the one of that day. *)
Definition peak_on_axis `{C : Collaborators} (date0 : Date) (n : nat)
    (ev : Event) : Prop :=
  match ev with
  | Fit _ _ _ _ _ _ _ => True
  | Peak _ _ idx day => (idx < n)%nat ∧ day = plus_days date0 (Z.of_nat idx)
  end.

(** * Properties *)

Local Close Scope Qc_scope.
Local Close Scope Z_scope.

(** ** Slices and array assignments *)

Lemma slice_index_nonneg n i :
  (0 ≤ i)%Z → slice_index n i = Z.to_nat i `min` n.
Proof. unfold slice_index. intros Hi. destruct (Z.ltb_spec i 0); lia. Qed.

Lemma slice_index_neg n i :
  (i < 0)%Z → slice_index n i = n - Z.to_nat (- i).
Proof. unfold slice_index. intros Hi. destruct (Z.ltb_spec i 0); lia. Qed.

Lemma slice_index_le n i : slice_index n i ≤ n.
Proof.
  destruct (Z.ltb_spec i 0).
  - rewrite slice_index_neg by done. lia.
  - rewrite slice_index_nonneg by done. lia.
Qed.

Lemma length_slice_from {A} i (l : list A) :
  length (slice_from i l) = length l - slice_index (length l) i.
Proof. unfold slice_from. by rewrite length_drop. Qed.

Lemma length_slice_to {A} i (l : list A) :
  length (slice_to i l) = slice_index (length l) i.
Proof.
  unfold slice_to. rewrite length_take. pose proof (slice_index_le (length l) i). lia.
Qed.

(** With a zero bound, [l[:-0]] is [l[:0]]: nothing is kept. *)
Lemma slice_to_minus_zero {A} (l : list A) : slice_to (- 0)%Z l = [].
Proof. unfold slice_to. by rewrite slice_index_nonneg. Qed.

Lemma set_col_from_lookup {A} i j x (a : list (list A)) t :
  set_col_from i j x a !! t
  = (λ row, if bool_decide (slice_index (length a) i ≤ t) then <[j:=x]> row else row)
      <$> a !! t.
Proof.
  unfold set_col_from. set (b := slice_index (length a) i).
  assert (b ≤ length a) by apply slice_index_le.
  destruct (decide (t < b)) as [Hlt|Hge].
  - rewrite lookup_app_l by (rewrite length_take; lia).
    rewrite lookup_take_lt by done.
    rewrite bool_decide_eq_false_2 by lia. by destruct (a !! t).
  - rewrite lookup_app_r by (rewrite length_take; lia).
    rewrite length_take, list_lookup_fmap, lookup_drop.
    replace (b + (t - b `min` length a)) with t by lia.
    rewrite bool_decide_eq_true_2 by lia. done.
Qed.

Lemma length_set_col_from {A} i j x (a : list (list A)) :
  length (set_col_from i j x a) = length a.
Proof.
  unfold set_col_from.
  rewrite length_app, length_fmap, length_take, length_drop.
  pose proof (slice_index_le (length a) i). lia.
Qed.

Lemma set_last_last_Ok {A} (x : A) a a' :
  set_last_last x a = Ok a' →
  a ≠ [] ∧ length a' = length a
  ∧ ∀ t row', a' !! t = Some row' → ∃ row, a !! t = Some row ∧ length row' = length row.
Proof.
  unfold set_last_last. destruct (last a) as [row|] eqn:Hlast; [|done].
  unfold set_last. destruct row as [|c row]; [done|]. simpl.
  intros [= <-]. split; [by intros ->|]. split; [by rewrite length_insert|].
  intros t row' Ht.
  destruct (decide (t = Nat.pred (length a))) as [->|Hne].
  - rewrite last_lookup in Hlast.
    apply list_lookup_insert_Some in Ht as [(_ & <- & _)|(? & _)]; [|done].
    eexists. split; [done|]. by rewrite length_insert.
  - rewrite list_lookup_insert_ne in Ht by done. eauto.
Qed.

Lemma set_last_last_is_Ok {A} (x : A) a :
  a ≠ [] → Forall (λ row, row ≠ []) a → ∃ a', set_last_last x a = Ok a'.
Proof.
  intros Ha Hrows. unfold set_last_last.
  destruct (last a) as [row|] eqn:Hlast.
  - assert (row ≠ []) as Hrow.
    { rewrite last_lookup in Hlast.
      by eapply (Forall_lookup_1 _ _ _ _ Hrows Hlast). }
    destruct row; [done|]. simpl. eauto.
  - by apply last_None in Hlast.
Qed.

Lemma set_last_last_nil {A} (x : A) : set_last_last x [] = Raise IndexError.
Proof. done. Qed.

(** ** load_data *)

Lemma MOBILITY_KEYS_length r : length (MOBILITY_KEYS r) = 6.
Proof. done. Qed.

Lemma loc_Ok {A} (l : list A) i x :
  loc l i = Ok x ↔ (0 ≤ i)%Z ∧ l !! Z.to_nat i = Some x.
Proof.
  unfold loc. destruct (Z.ltb_spec i 0).
  - split; [done|lia].
  - destruct (l !! Z.to_nat i); split; [intros [= ->]| intros [_ [= ->]] | | intros [_ ?]]; done.
Qed.

Lemma loc_in_range {A} (l : list A) i :
  (0 ≤ i < Z.of_nat (length l))%Z → ∃ x, loc l i = Ok x.
Proof.
  intros Hi. destruct (lookup_lt_is_Some_2 l (Z.to_nat i)) as [x Hx]; [lia|].
  exists x. apply loc_Ok. split; [lia|done].
Qed.

Lemma length_format_data p a :
  length (format_data p a) = length a - slice_index (length a) (start_model p).
Proof.
  unfold format_data. rewrite length_slice_from.
  destruct (mask_modifier p);
    rewrite ?length_set_col_from; unfold set_col, map_cols_to;
    by rewrite !length_fmap.
Qed.

Section LoadDataFacts.

Variable get_data : ParamDict → DataFrame.

(** What a successful run of [load_data] passed through. *)
Lemma load_data_Ok_inv p r :
  load_data get_data p = Ok r →
  ∃ a,
    set_last_last (Qc_of_Z 17)
      (slice_to (- delay_days p) (MOBILITY_KEYS <$> get_data (paramdict p))) = Ok a
    ∧ mobility r = format_data p a
    ∧ cases r = slice_from (start_model p)
                  (slice_from (delay_days p) (Cases <$> get_data (paramdict p)))
    ∧ loc (date <$> get_data (paramdict p)) (total_delay p) = Ok (day0 r)
    ∧ loc (Cases <$> get_data (paramdict p))
          (total_delay p - (if (0 <? total_delay p)%Z then 1 else 0))%Z
      = Ok (prev_cases r)
    ∧ loc (Population <$> get_data (paramdict p)) 0 = Ok (population r).
Proof.
  unfold load_data, total_delay. intros H.
  destruct (loc (Population <$> _) 0) as [pop|] eqn:Hpop; [|done].
  destruct (loc (date <$> _) _) as [d0|] eqn:Hd0; [|done].
  destruct (loc (Cases <$> _) _) as [pc|] eqn:Hpc; [|done].
  destruct (set_last_last _ _) as [a|] eqn:Ha; [|done].
  simpl in H. injection H as <-. exists a. simpl. done.
Qed.

(** With a positive delay that leaves days to fit, [load_data] returns. *)
Lemma load_data_returns p :
  (0 < delay_days p)%Z → (0 ≤ start_model p)%Z →
  (0 < raw_length get_data p - delay_days p - start_model p)%Z →
  ∃ r, load_data get_data p = Ok r.
Proof.
  unfold raw_length. intros Hd Hs Hn. unfold load_data.
  set (df := get_data (paramdict p)) in *.
  destruct (loc_in_range (Population <$> df) 0) as [pop ->];
    [rewrite length_fmap; lia|].
  destruct (loc_in_range (date <$> df) (delay_days p + start_model p)) as [d0 ->];
    [rewrite length_fmap; lia|].
  destruct (loc_in_range (Cases <$> df)
    (delay_days p + start_model p
     - (if (0 <? delay_days p + start_model p)%Z then 1 else 0))) as [pc ->].
  { rewrite length_fmap. destruct (Z.ltb_spec 0 (delay_days p + start_model p)); lia. }
  simpl.
  destruct (set_last_last_is_Ok (Qc_of_Z 17)
    (slice_to (- delay_days p) (MOBILITY_KEYS <$> df))) as [a ->].
  - intros Hnil. apply (f_equal length) in Hnil.
    rewrite length_slice_to, length_fmap, slice_index_neg in Hnil by lia.
    simpl in Hnil. lia.
  - apply Forall_forall. intros row Hrow. unfold slice_to in Hrow.
    apply list_elem_of_lookup in Hrow as [i Hrow].
    apply lookup_take_Some in Hrow as [Hrow _].
    rewrite list_lookup_fmap in Hrow.
    apply fmap_Some in Hrow as (rec & _ & ->). done.
  - simpl. eauto.
Qed.

(** With a positive delay, both aligned series have the length
    [rawLength - delayDays - startModelOffset]. *)
Lemma load_data_lengths p r :
  (0 < delay_days p)%Z → (0 ≤ start_model p)%Z →
  (0 < raw_length get_data p - delay_days p - start_model p)%Z →
  load_data get_data p = Ok r →
  Z.of_nat (length (mobility r))
  = (raw_length get_data p - delay_days p - start_model p)%Z
  ∧ Z.of_nat (length (cases r))
    = (raw_length get_data p - delay_days p - start_model p)%Z.
Proof.
  unfold raw_length. intros Hd Hs Hn Hr.
  destruct (load_data_Ok_inv _ _ Hr) as (a & Ha & -> & -> & _).
  apply set_last_last_Ok in Ha as (_ & Hlen & _).
  rewrite length_format_data, Hlen, length_slice_to, length_fmap.
  rewrite !length_slice_from, length_fmap.
  rewrite slice_index_neg by lia.
  rewrite !slice_index_nonneg by lia. lia.
Qed.

(** With a zero delay and a non-empty frame whose index [start_model] is
    valid, line 67 keeps no mobility row and line 70 raises. *)
Lemma load_data_delay_zero p :
  delay_days p = 0%Z →
  (0 ≤ start_model p < raw_length get_data p)%Z →
  load_data get_data p = Raise IndexError.
Proof.
  unfold raw_length. intros Hd Hs. unfold load_data.
  set (df := get_data (paramdict p)) in *. rewrite Hd.
  destruct (loc_in_range (Population <$> df) 0) as [pop ->];
    [rewrite length_fmap; lia|].
  destruct (loc_in_range (date <$> df) (0 + start_model p)) as [d0 ->];
    [rewrite length_fmap; lia|].
  destruct (loc_in_range (Cases <$> df)
    (0 + start_model p - (if (0 <? 0 + start_model p)%Z then 1 else 0))) as [pc ->].
  { rewrite length_fmap. destruct (Z.ltb_spec 0 (0 + start_model p)); lia. }
  simpl. by rewrite slice_to_minus_zero.
Qed.

End LoadDataFacts.

(** ** The mandate column of the aligned mobility *)

Lemma six_columns_frame (df : DataFrame) k :
  six_columns (take k (MOBILITY_KEYS <$> df)).
Proof.
  apply Forall_take, Forall_fmap, Forall_forall. by intros rec _.
Qed.

Lemma six_columns_set_last_last x a a' :
  set_last_last x a = Ok a' → six_columns a → six_columns a'.
Proof.
  intros Ha Hsix. apply set_last_last_Ok in Ha as (_ & _ & Hrows).
  apply Forall_lookup. intros t row' Ht.
  destruct (Hrows _ _ Ht) as (row & Hrow & ->).
  by apply (Forall_lookup_1 _ _ _ _ Hsix Hrow).
Qed.

Lemma format_data_mandate p a t :
  six_columns a → (0 ≤ start_model p)%Z → (0 ≤ mask_day p)%Z →
  t < length (format_data p a) →
  mandate (format_data p a) t
  = Some (if mask_modifier p && bool_decide (mask_day p - start_model p ≤ Z.of_nat t)%Z
          then 1%Qc else 0%Qc).
Proof.
  intros Hsix Hs Hm Ht. rewrite length_format_data in Ht.
  rewrite slice_index_nonneg in Ht by done.
  unfold mandate, format_data, slice_from.
  set (conv := map_cols_to 6 _ a).
  assert (length conv = length a) as Hconv by (unfold conv, map_cols_to; by rewrite length_fmap).
  assert (∀ i row, set_col 5 0%Qc conv !! i = Some row →
            length row = 6 ∧ row !! 5 = Some 0%Qc) as Hzero.
  { intros i row. unfold set_col, conv, map_cols_to.
    rewrite !list_lookup_fmap. intros Hrow.
    apply fmap_Some in Hrow as (row1 & Hrow1 & ->).
    apply fmap_Some in Hrow1 as (row0 & Hrow0 & ->).
    pose proof (Forall_lookup_1 _ _ _ _ Hsix Hrow0) as Hlen. simpl in Hlen.
    assert (length (((λ x : Qc, (1 + x / Qc_of_Z 100)%Qc) <$> take 6 row0) ++ drop 6 row0) = 6)
      as Hlen' by (rewrite length_app, length_fmap, length_take, length_drop; lia).
    split; [by rewrite length_insert|].
    apply list_lookup_insert_eq. lia. }
  assert (length (set_col 5 0%Qc conv) = length a) as Hlen0
    by (unfold set_col; by rewrite length_fmap).
  destruct (lookup_lt_is_Some_2 (set_col 5 0%Qc conv) (Z.to_nat (start_model p) + t))
    as [row Hrow]; [lia|].
  destruct (Hzero _ _ Hrow) as [Hlen Hcol].
  destruct (mask_modifier p); simpl.
  - rewrite length_set_col_from, Hlen0, slice_index_nonneg by done.
    replace (Z.to_nat (start_model p) `min` length a) with (Z.to_nat (start_model p)) by lia.
    rewrite lookup_drop, set_col_from_lookup, Hrow. simpl.
    rewrite Hlen0, slice_index_nonneg by done.
    case_bool_decide as Hb.
    + rewrite bool_decide_eq_true_2 by lia.
      apply list_lookup_insert_eq. lia.
    + rewrite bool_decide_eq_false_2 by lia. done.
  - rewrite Hlen0, slice_index_nonneg by done.
    replace (Z.to_nat (start_model p) `min` length a) with (Z.to_nat (start_model p)) by lia.
    by rewrite lookup_drop, Hrow.
Qed.

(** The mandate column of what [load_data] returns, day by day. *)
Lemma load_data_mandate_step get_data p r :
  (0 ≤ start_model p)%Z → (0 ≤ mask_day p)%Z →
  load_data get_data p = Ok r →
  length (mobility r) ≤ length (get_data (paramdict p))
  ∧ ∀ t, t < length (mobility r) →
      mandate (mobility r) t
      = Some (if mask_modifier p && bool_decide (mask_day p - start_model p ≤ Z.of_nat t)%Z
              then 1%Qc else 0%Qc).
Proof.
  intros Hs Hm Hr.
  destruct (load_data_Ok_inv _ _ _ Hr) as (a & Ha & Hmob & _).
  assert (six_columns a) as Hsix.
  { eapply six_columns_set_last_last; [done|]. apply six_columns_frame. }
  rewrite Hmob. split; [|intros t; by apply format_data_mandate].
  rewrite length_format_data.
  apply set_last_last_Ok in Ha as (_ & -> & _).
  rewrite length_slice_to, length_fmap.
  pose proof (slice_index_le (length (get_data (paramdict p))) (- delay_days p)). lia.
Qed.

(** C3: for a configuration with non-negative [start_model] and [mask_day],
    the mandate column of the mobility that [load_data] returns is 0 on
    every day when mask-modeling is off; when it is on, it is 0 before day
    [mask_day - start_model] and 1 from that day on (the whole series is 1
    when that day is not positive, and 0 when it is past the end), hence a
    non-decreasing 0/1 step.  [load_data] does return when moreover the
    delay is positive and leaves days to fit. *)
Theorem load_data_mandate_column get_data p :
  (0 ≤ start_model p)%Z → (0 ≤ mask_day p)%Z →
  ((0 < delay_days p)%Z →
   (0 < raw_length get_data p - delay_days p - start_model p)%Z →
   ∃ r, load_data get_data p = Ok r)
  ∧ ∀ r, load_data get_data p = Ok r →
      (mask_modifier p = false →
       ∀ t, t < length (mobility r) → mandate (mobility r) t = Some 0%Qc)
      ∧ (mask_modifier p = true →
         ∀ t, t < length (mobility r) →
           mandate (mobility r) t
           = Some (if bool_decide (Z.of_nat t < mask_day p - start_model p)%Z
                   then 0%Qc else 1%Qc))
      ∧ (∀ t1 t2, t1 ≤ t2 → t2 < length (mobility r) →
           ∃ x1 x2, mandate (mobility r) t1 = Some x1
                    ∧ mandate (mobility r) t2 = Some x2
                    ∧ (x1 ≤ x2)%Qc).
Proof.
  intros Hs Hm. split; [intros; by apply load_data_returns|].
  intros r Hr.
  destruct (load_data_mandate_step _ _ _ Hs Hm Hr) as [_ Hcol].
  split; [|split].
  - intros Hoff t Ht. rewrite Hcol by done. by rewrite Hoff.
  - intros Hon t Ht. rewrite Hcol by done. rewrite Hon. simpl.
    repeat case_bool_decide; done || lia.
  - intros t1 t2 Hle Ht2. do 2 eexists.
    split; [apply Hcol; lia|]. split; [by apply Hcol|].
    destruct (mask_modifier p); simpl; [|done].
    repeat case_bool_decide; done || lia.
Qed.

(** ** The hard-coded override of line 70 *)

Lemma set_last_last_raises {A} (x : A) a e :
  set_last_last x a = Raise e → e = IndexError.
Proof.
  unfold set_last_last. destruct (last a) as [row|]; [|by intros [= <-]].
  destruct row; simpl; [by intros [= <-]|done].
Qed.

(** On a days x 6 array the override lands in column 5, which lines 73-76
    recompute from nothing but the row's position. *)
Lemma format_data_override p a a' :
  six_columns a → set_last_last (Qc_of_Z 17) a = Ok a' →
  format_data p a' = format_data p a.
Proof.
  intros Hsix. unfold set_last_last.
  destruct (last a) as [row|] eqn:Hlast; [|done].
  rewrite last_lookup in Hlast.
  pose proof (Forall_lookup_1 _ _ _ _ Hsix Hlast) as Hlen. simpl in Hlen.
  destruct row as [|c row]; [done|]. simpl. intros [= <-].
  unfold format_data.
  enough (set_col 5 0%Qc (map_cols_to 6 (λ x, (1 + x / Qc_of_Z 100)%Qc)
            (<[Nat.pred (length a) := <[length row := Qc_of_Z 17]> (c :: row)]> a))
          = set_col 5 0%Qc (map_cols_to 6 (λ x, (1 + x / Qc_of_Z 100)%Qc) a)) as ->
    by done.
  unfold set_col, map_cols_to. rewrite <-!list_fmap_compose.
  rewrite list_fmap_insert. apply list_insert_id.
  rewrite list_lookup_fmap, Hlast. simpl. f_equal.
  destruct row as [|c1 [|c2 [|c3 [|c4 [|c5 [|c6 row]]]]]]; simplify_eq/=; done.
Qed.

Section Override.

Variable get_data : ParamDict → DataFrame.

(** C9 as stated fails: on a frame of three days with [delay_days = 0] the
    function raises at the override, and without the override it returns
    (an empty mobility array and all three case counts).  The same happens
    whenever the delay trims every mobility row away, as with
    [delay_days = 3] and [start_model = -1]. *)
Lemma load_data_override_changes_outcome :
  load_data (λ _, frame3) (config 0 0 false 0) = Raise IndexError
  ∧ load_data_without_override (λ _, frame3) (config 0 0 false 0)
    = Ok {| mobility := []; cases := [40; 50; 70]%Z; day0 := "2020-03-01";
            population := 1000000; prev_cases := 40 |}
  ∧ load_data (λ _, frame3) (config 3 (-1) false 0) = Raise IndexError
  ∧ load_data_without_override (λ _, frame3) (config 3 (-1) false 0)
    = Ok {| mobility := []; cases := []; day0 := "2020-03-03";
            population := 1000000; prev_cases := 50 |}.
Proof. split_and!; reflexivity. Qed.

(** C9, amended: on every input on which the override itself does not raise
    (the delay-trimmed mobility is not empty), [load_data] with and without
    line 70 have the same outcome: the same mobility, cases, day0, population
    and prev_cases, or the same exception of an earlier lookup. *)
Theorem load_data_override_no_effect p :
  raises IndexError (load_data get_data p) = false →
  load_data get_data p = load_data_without_override get_data p.
Proof.
  unfold load_data, load_data_without_override.
  destruct (loc (Population <$> _) 0) as [pop|]; [|done].
  destruct (loc (date <$> _) _) as [d0|]; [|done].
  destruct (loc (Cases <$> _) _) as [pc|]; [|done]. simpl.
  destruct (set_last_last _ _) as [a|e] eqn:Ha; simpl.
  - intros _. do 2 f_equal.
    eapply format_data_override; [|done]. apply six_columns_frame.
  - apply set_last_last_raises in Ha as ->. done.
Qed.

End Override.

Lemma load_data_override_no_effect_witness :
  raises IndexError (load_data (λ _, frame3) (config 1 0 true 1)) = false
  ∧ load_data (λ _, frame3) (config 1 0 true 1)
    = load_data_without_override (λ _, frame3) (config 1 0 true 1).
Proof.
  split; [reflexivity|].
  apply (load_data_override_no_effect (λ _, frame3) (config 1 0 true 1)).
  reflexivity.
Defined.

(** ** The record date and the previous case count *)

Lemma load_data_day0_prev_cases get_data p r :
  load_data get_data p = Ok r →
  loc (date <$> get_data (paramdict p)) (total_delay p) = Ok (day0 r)
  ∧ loc (Cases <$> get_data (paramdict p))
        (if (0 <? total_delay p)%Z then total_delay p - 1 else total_delay p)%Z
    = Ok (prev_cases r).
Proof.
  intros Hr. destruct (load_data_Ok_inv _ _ _ Hr) as (_ & _ & _ & _ & Hd0 & Hpc & _).
  split; [done|]. rewrite <-Hpc. f_equal. destruct (0 <? total_delay p)%Z; lia.
Qed.

(** With non-negative delays, a total delay of zero means [delay_days = 0],
    on which [load_data] never returns. *)
Lemma load_data_total_delay_zero get_data p r :
  (0 ≤ delay_days p)%Z → (0 ≤ start_model p)%Z → total_delay p = 0%Z →
  load_data get_data p ≠ Ok r.
Proof.
  unfold total_delay. intros Hd Hs Htd Hr.
  destruct (load_data_Ok_inv _ _ _ Hr) as (a & Ha & _).
  replace (delay_days p) with 0%Z in Ha by lia.
  by rewrite slice_to_minus_zero in Ha.
Qed.

(** C1 (the code fails it at [delay_days = 0]): on a frame of three days
    with [delay_days = 0] and [start_model = 1], a valid configuration that
    should leave two aligned days, line 67 keeps [mobility[:-0]], which is
    empty, and line 70 raises IndexError; no series is returned. *)
Theorem load_data_delay_zero_raises :
  (0 ≤ delay_days (config 0 1 false 0))%Z
  ∧ (0 ≤ start_model (config 0 1 false 0))%Z
  ∧ (raw_length (λ _, frame3) (config 0 1 false 0)
     - delay_days (config 0 1 false 0) - start_model (config 0 1 false 0) = 2)%Z
  ∧ load_data (λ _, frame3) (config 0 1 false 0) = Raise IndexError.
Proof. split_and!; [simpl; lia|simpl; lia|reflexivity|reflexivity]. Qed.

(** C6 (the code fails it at [total_delay = 0]): on a frame of three days
    with [delay_days = 0] and [start_model = 0], index 0 is a valid record
    index whose date and case count exist, and [load_data] raises IndexError
    at line 70 instead of returning them. *)
Theorem load_data_total_delay_zero_raises :
  total_delay (config 0 0 false 0) = 0%Z
  ∧ loc (date <$> frame3) 0 = Ok "2020-03-01"
  ∧ loc (Cases <$> frame3) 0 = Ok 40%Z
  ∧ load_data (λ _, frame3) (config 0 0 false 0) = Raise IndexError.
Proof. split_and!; reflexivity. Qed.

Lemma load_data_mandate_column_witness :
  (0 ≤ start_model (config 1 1 true 2))%Z
  ∧ (0 ≤ mask_day (config 1 1 true 2))%Z
  ∧ ∃ r, load_data (λ _, frame6) (config 1 1 true 2) = Ok r
         ∧ length (mobility r) = 4
         ∧ mandate (mobility r) 0 = Some 0%Qc
         ∧ mandate (mobility r) 1 = Some 1%Qc
         ∧ mandate (mobility r) 3 = Some 1%Qc.
Proof.
  split; [simpl; lia|]. split; [simpl; lia|].
  destruct (load_data_mandate_column (λ _, frame6) (config 1 1 true 2))
    as [Hret Hcol]; [simpl; lia..|].
  destruct Hret as [r Hr]; [simpl; lia|reflexivity|].
  exists r. split; [done|].
  destruct (Hcol r Hr) as (_ & Hon & _).
  assert (length (mobility r) = 4) as Hlen.
  { vm_compute in Hr. injection Hr as <-. reflexivity. }
  split; [done|]. rewrite !Hon by (done || lia). done.
Defined.

(** ** The trace monad *)

Section Monad.

Context `{C : Collaborators}.

Lemma outcome_bind_Ok {A B} (m : Run A) (f : A → Run B) b :
  outcome (m ≫= f) = Ok b ↔ ∃ a, outcome m = Ok a ∧ outcome (f a) = Ok b.
Proof.
  unfold mbind, Run_bind. destruct (outcome m) as [a|e]; simpl.
  - split; [eauto|]. by intros (a' & [= <-] & ?).
  - split; [done|]. by intros (a' & ? & _).
Qed.

Lemma trace_bind {A B} (m : Run A) (f : A → Run B) :
  trace (m ≫= f)
  = trace m ++ match outcome m with Ok a => trace (f a) | Raise _ => [] end.
Proof.
  unfold mbind, Run_bind. destruct (outcome m); simpl; [done|by rewrite app_nil_r].
Qed.

Lemma outcome_lift_bind {A B} (r : result A) (f : A → Run B) a :
  r = Ok a → lift r ≫= f = f a.
Proof. intros ->. unfold mbind, Run_bind, lift. simpl. by destruct (f a). Qed.

Lemma for_each_cons {A S} x (l : list A) (body : A → S → Run S) s :
  for_each (x :: l) body s = body x s ≫= for_each l body.
Proof. done. Qed.

(** A property of the loop state that every iteration keeps holds at the
    end of the loop. *)
Lemma for_each_invariant {A S} (P : S → Prop) (l : list A) (body : A → S → Run S) s s' :
  outcome (for_each l body s) = Ok s' →
  P s →
  (∀ x s0 s1, x ∈ l → P s0 → outcome (body x s0) = Ok s1 → P s1) →
  P s'.
Proof.
  revert s. induction l as [|x l IH]; intros s Hrun Hs Hbody.
  - by injection Hrun as <-.
  - rewrite for_each_cons in Hrun. apply outcome_bind_Ok in Hrun as (s1 & H1 & Hrest).
    apply (IH s1); [done| |intros ?????; eapply Hbody; [by right|done..]].
    eapply Hbody; [by left|done..].
Qed.

(** Iterations that commute can be run in any order. *)
Lemma for_each_Permutation {A S} (l l' : list A) (body : A → S → Run S) s s' :
  (∀ x y s0 s2,
     outcome (body x s0 ≫= body y) = Ok s2 → outcome (body y s0 ≫= body x) = Ok s2) →
  l ≡ₚ l' →
  outcome (for_each l body s) = Ok s' → outcome (for_each l' body s) = Ok s'.
Proof.
  intros Hcomm Hperm. revert s.
  induction Hperm as [|x l l' _ IH|x y l|l l' l'' _ IH1 _ IH2]; intros s.
  - done.
  - rewrite !for_each_cons. intros (s1 & H1 & Hrest)%outcome_bind_Ok.
    apply outcome_bind_Ok. eauto.
  - rewrite !for_each_cons.
    intros (s1 & H1 & (s2 & H2 & Hrest)%outcome_bind_Ok)%outcome_bind_Ok.
    assert (outcome (body x s ≫= body y) = Ok s2) as Hxy.
    { apply Hcomm, outcome_bind_Ok. eauto. }
    apply outcome_bind_Ok in Hxy as (s1' & H1' & H2').
    apply outcome_bind_Ok. exists s1'. split; [done|].
    apply outcome_bind_Ok. eauto.
  - eauto.
Qed.

(** The events of a loop are events of its iterations. *)
Lemma for_each_trace_Forall {A S} (Q : Event → Prop) (l : list A)
    (body : A → S → Run S) s :
  (∀ x s0, Forall Q (trace (body x s0))) → Forall Q (trace (for_each l body s)).
Proof.
  intros Hbody. revert s. induction l as [|x l IH]; intros s; [by constructor|].
  rewrite for_each_cons, trace_bind. apply Forall_app. split; [done|].
  destruct (outcome (body x s)); [done|by constructor].
Qed.

End Monad.

(** ** Peak detection *)

(** Nothing in [l] exceeds the running maximum: it is kept. *)
Lemma argmax_from_keep best_i best i l :
  (∀ w, w ∈ l → ¬ (best < w)%Qc) →
  argmax_from best_i best i l = best_i ∧ foldl Qc_max best l = best.
Proof.
  revert i. induction l as [|x l IH]; intros i Hl; [done|]. simpl.
  unfold Qc_max at 2.
  rewrite bool_decide_eq_false_2 by (apply Hl; by left).
  apply IH. intros w Hw. apply Hl. by right.
Qed.

(** A value at position [k] that exceeds the running maximum and every
    other entry is found, at its position. *)
Lemma argmax_from_unique best_i best i l k v :
  l !! k = Some v → (best < v)%Qc →
  (∀ j w, j ≠ k → l !! j = Some w → (w < v)%Qc) →
  argmax_from best_i best i l = i + k ∧ foldl Qc_max best l = v.
Proof.
  revert best_i best i k. induction l as [|x l IH]; intros best_i best i k Hk Hbest Hothers;
    [done|].
  simpl. unfold Qc_max at 2. destruct k as [|k]; simpl in Hk.
  - injection Hk as ->. rewrite bool_decide_eq_true_2 by done.
    rewrite Nat.add_0_r. apply argmax_from_keep.
    intros w [j Hj]%list_elem_of_lookup.
    apply Qcle_not_lt, Qclt_le_weak, (Hothers (S j)); done.
  - assert (x < v)%Qc as Hx by (by apply (Hothers 0)).
    assert (∀ j w, j ≠ k → l !! j = Some w → (w < v)%Qc) as Hrest.
    { intros j w Hj Hw. apply (Hothers (S j)); [lia|done]. }
    case_bool_decide.
    + destruct (IH i x (S i) k Hk Hx Hrest) as [-> ->]. split; [lia|done].
    + destruct (IH best_i best (S i) k Hk Hbest Hrest) as [-> ->]. split; [lia|done].
Qed.

Lemma np_argmax_max_unique l k v :
  l !! k = Some v →
  (∀ j w, j ≠ k → l !! j = Some w → (w < v)%Qc) →
  np_argmax l = Ok k ∧ np_max l = Ok v.
Proof.
  intros Hk Hothers. destruct l as [|x l]; [done|]. simpl.
  destruct k as [|k]; simpl in Hk.
  - injection Hk as ->.
    destruct (argmax_from_keep 0 v 1 l) as [-> ->]; [|done].
    intros w [j Hj]%list_elem_of_lookup.
    apply Qcle_not_lt, Qclt_le_weak, (Hothers (S j)); done.
  - destruct (argmax_from_unique 0 x 1 l k v) as [-> ->]; [done| | |done].
    + by apply (Hothers 0).
    + intros j w Hj Hw. apply (Hothers (S j)); [lia|done].
Qed.

(** C8: when the active series has its only maximum [v] at index [k] and
    [dates] has an entry [d] at that index, the reporting step of [forecast]
    prints exactly one peak line, with the value [v], the index [k] and the
    date [d], and raises nothing. *)
Theorem report_peak_unique_maximum `{C : Collaborators}
    (case : Qc) (active : list Qc) (dates : list Date) (k : nat) (v : Qc) (d : Date) :
  active !! k = Some v →
  (∀ j w, j ≠ k → active !! j = Some w → (w < v)%Qc) →
  dates !! k = Some d →
  report_peak case active dates = mkRun [Peak case v k d] (Ok tt).
Proof.
  intros Hk Hothers Hd. destruct (np_argmax_max_unique _ _ _ Hk Hothers) as [Hidx Hmax].
  unfold report_peak.
  rewrite (outcome_lift_bind _ _ v Hmax), (outcome_lift_bind _ _ k Hidx).
  rewrite (outcome_lift_bind _ _ d); [done|]. unfold item. by rewrite Hd.
Qed.

Lemma report_peak_unique_maximum_witness :
  toy_active !! 1 = Some (Qc_of_Z 9)
  ∧ toy_dates !! 1 = Some ("2020-03-02", 1%Z)
  ∧ report_peak (C := toy frame3) (Qc_of_Z 50) toy_active toy_dates
    = mkRun [Peak (C := toy frame3) (Qc_of_Z 50) (Qc_of_Z 9) 1 ("2020-03-02", 1%Z)] (Ok tt).
Proof.
  split; [reflexivity|]. split; [reflexivity|].
  apply (report_peak_unique_maximum (C := toy frame3) (Qc_of_Z 50) toy_active toy_dates 1);
    [reflexivity| |reflexivity].
  intros [|[|[|[|j]]]] w Hj Hw; try done; injection Hw as <-; by vm_compute.
Defined.

(** ** The trajectory of a forecast *)

Section Trajectory.

Context `{C : Collaborators}.

Lemma mask_overwrite_lookup p (rX : Tensor3) t :
  mask_overwrite p rX !! t
  = (λ batch,
       if mask_modifier p && bool_decide (slice_index (length rX) (mask_day p) ≤ t)
       then alter (<[5 := 1%Qc]>) 0 batch else batch) <$> rX !! t.
Proof.
  unfold mask_overwrite. destruct (mask_modifier p); cbn [andb]; [|by destruct (rX !! t)].
  set (b := slice_index (length rX) (mask_day p)).
  assert (b ≤ length rX) by apply slice_index_le.
  destruct (decide (t < b)) as [Hlt|Hge].
  - rewrite lookup_app_l by (rewrite length_take; lia).
    rewrite lookup_take_lt by done.
    rewrite bool_decide_eq_false_2 by lia. by destruct (rX !! t).
  - rewrite lookup_app_r by (rewrite length_take; lia).
    rewrite length_take, list_lookup_fmap, lookup_drop.
    replace (b + (t - b `min` length rX)) with t by lia.
    by rewrite bool_decide_eq_true_2 by lia.
Qed.

(** The overwrite leaves every day before [mask_day] as it was. *)
Lemma mask_overwrite_before p (rX : Tensor3) t :
  (0 ≤ mask_day p)%Z → (Z.of_nat t < mask_day p)%Z →
  mask_overwrite p rX !! t = rX !! t.
Proof.
  intros Hm Ht. rewrite mask_overwrite_lookup.
  destruct (rX !! t) as [batch|] eqn:Hb; [|done]. simpl.
  apply lookup_lt_Some in Hb.
  rewrite slice_index_nonneg, bool_decide_eq_false_2 by lia.
  by rewrite andb_false_r.
Qed.

(** The overwrite never turns a 1 of the mandate channel into something
    else. *)
Lemma mask_overwrite_keeps_one p (rX : Tensor3) t :
  mandate3 rX t = Some 1%Qc → mandate3 (mask_overwrite p rX) t = Some 1%Qc.
Proof.
  unfold mandate3. rewrite mask_overwrite_lookup.
  destruct (rX !! t) as [batch|]; [|done]. simpl.
  destruct (batch !! 0) as [row|] eqn:Hrow; [|done]. simpl. intros H5.
  destruct (_ && _); simpl; [|by rewrite Hrow].
  rewrite list_lookup_alter_eq, Hrow. simpl.
  apply list_lookup_insert_eq. by apply lookup_lt_Some in H5.
Qed.

(** On the days of the history, the trajectory before the overwrite has the
    mandate column of the aligned mobility. *)
Lemma scenario_cat_history X p case rX t :
  scenario_cat (add_batch X) p case = Ok rX → t < length X →
  mandate3 rX t = mandate X t.
Proof.
  unfold scenario_cat. destruct (forecast_days p <? 0)%Z; [done|].
  intros [= <-] Ht. unfold mandate3, mandate, add_batch.
  rewrite lookup_app_l by (by rewrite length_fmap).
  rewrite list_lookup_fmap. by destruct (X !! t).
Qed.

(** C10: with mask-modeling on, a positive [start_model] and a non-negative
    [mask_day], the trajectory that [forecast] builds from the mobility
    returned by [load_data] has mandate value 1 on every history day [t]
    with [mask_day - start_model <= t < historyLength], both as concatenated
    (carried over from the history) and as handed to the model; so, when
    [mask_day] is positive and the history is not empty and reaches day
    [mask_day - start_model], there is a day before [mask_day] with mandate
    value 1.  The overwrite of line 138 leaves every day before [mask_day]
    as it was and never turns a 1 into something else. *)
Theorem forecast_trajectory_mandate p loaded case rX :
  mask_modifier p = true → (0 < start_model p)%Z → (0 ≤ mask_day p)%Z →
  load_data get_data p = Ok loaded →
  scenario_cat (add_batch (mobility loaded)) p case = Ok rX →
  scenario_input (add_batch (mobility loaded)) p case = Ok (mask_overwrite p rX)
  ∧ (∀ t, (mask_day p - start_model p ≤ Z.of_nat t)%Z →
          t < length (mobility loaded) →
          mandate3 rX t = Some 1%Qc ∧ mandate3 (mask_overwrite p rX) t = Some 1%Qc)
  ∧ ((0 < mask_day p)%Z → 0 < length (mobility loaded) →
     (mask_day p - start_model p < Z.of_nat (length (mobility loaded)))%Z →
     ∃ t, (Z.of_nat t < mask_day p)%Z ∧ mandate3 (mask_overwrite p rX) t = Some 1%Qc)
  ∧ (∀ t, (Z.of_nat t < mask_day p)%Z → mask_overwrite p rX !! t = rX !! t)
  ∧ (∀ t, mandate3 rX t = Some 1%Qc → mandate3 (mask_overwrite p rX) t = Some 1%Qc).
Proof.
  intros Hon Hs Hm Hload Hcat.
  assert (∀ t, (mask_day p - start_model p ≤ Z.of_nat t)%Z →
               t < length (mobility loaded) →
               mandate3 rX t = Some 1%Qc ∧ mandate3 (mask_overwrite p rX) t = Some 1%Qc)
    as Hhistory.
  { intros t Ht Hlen.
    assert (mandate3 rX t = Some 1%Qc) as H1.
    { rewrite (scenario_cat_history _ _ _ _ _ Hcat Hlen).
      destruct (load_data_mandate_step get_data p loaded) as [_ Hstep]; [lia|done|done|].
      rewrite Hstep by done. by rewrite Hon, bool_decide_eq_true_2. }
    split; [done|]. by apply mask_overwrite_keeps_one. }
  split_and!.
  - unfold scenario_input. by rewrite Hcat.
  - done.
  - intros Hpos Hdays Hreach. exists (Z.to_nat (Z.max 0 (mask_day p - start_model p))).
    split; [lia|]. apply Hhistory; lia.
  - intros t Ht. by apply mask_overwrite_before.
  - intros t. apply mask_overwrite_keeps_one.
Qed.

End Trajectory.

Lemma forecast_trajectory_mandate_witness :
  mask_modifier (config 1 1 true 3) = true
  ∧ (0 < start_model (config 1 1 true 3))%Z
  ∧ (0 ≤ mask_day (config 1 1 true 3))%Z
  ∧ ∃ loaded rX,
      load_data (λ _, frame6) (config 1 1 true 3) = Ok loaded
      ∧ scenario_cat (add_batch (mobility loaded))
          (config 1 1 true 3) (Qc_of_Z 50) = Ok rX
      ∧ (2 < mask_day (config 1 1 true 3))%Z
      ∧ mandate3 (mask_overwrite (config 1 1 true 3) rX) 2 = Some 1%Qc.
Proof.
  split_and!; [reflexivity|simpl; lia|simpl; lia|].
  destruct (load_data (λ _, frame6) (config 1 1 true 3)) as [loaded|] eqn:Hload;
    [|by vm_compute in Hload].
  destruct (scenario_cat (add_batch (mobility loaded))
              (config 1 1 true 3) (Qc_of_Z 50)) as [rX|] eqn:Hcat;
    [|by vm_compute in Hcat].
  exists loaded, rX. split_and!; [done|done|simpl; lia|].
  assert (length (mobility loaded) = 4) as Hlen.
  { vm_compute in Hload. injection Hload as <-. reflexivity. }
  destruct (forecast_trajectory_mandate (C := toy frame6) (config 1 1 true 3)
              loaded (Qc_of_Z 50) rX) as (_ & Hhistory & _);
    [reflexivity|simpl; lia|simpl; lia|done|done|].
  apply Hhistory; [simpl; lia|lia].
Defined.

(** ** What the two loops store *)

Section Loops.

Context `{C : Collaborators}.

Lemma forecast_case_Ok X model dates sf p case active total st :
  outcome (forecast_case X model dates sf p case (active, total)) = Ok st →
  ∃ rX, scenario_input X p case = Ok rX
        ∧ st = (<[case := (λ d, infectious d * sf)%Qc <$> run model rX]> active,
                <[case := (λ d, (infectious d + removed d) * sf)%Qc <$> run model rX]> total).
Proof.
  unfold forecast_case.
  intros (rX & HrX & Hrest)%outcome_bind_Ok.
  apply outcome_bind_Ok in Hrest as ([] & _ & [= <-]). eauto.
Qed.

(** Every entry of the two dicts that [forecast] returns stems from one run
    of the model, under the same key in both. *)
Lemma forecast_entries X model dates sf p active total case :
  outcome (forecast X model dates sf p) = Ok (active, total) →
  (active !! case = None ∧ total !! case = None)
  ∨ ∃ rX, scenario_input X p case = Ok rX
          ∧ active !! case = Some ((λ d, infectious d * sf)%Qc <$> run model rX)
          ∧ total !! case
            = Some ((λ d, (infectious d + removed d) * sf)%Qc <$> run model rX).
Proof.
  unfold forecast. intros H. revert case.
  apply (for_each_invariant
    (λ st, ∀ case,
       (st.1 !! case = None ∧ st.2 !! case = None)
       ∨ ∃ rX, scenario_input X p case = Ok rX
               ∧ st.1 !! case = Some ((λ d, infectious d * sf)%Qc <$> run model rX)
               ∧ st.2 !! case
                 = Some ((λ d, (infectious d + removed d) * sf)%Qc <$> run model rX))
    _ _ _ _ H); [by left|].
  intros case [a t] st _ IH (rX & HrX & ->)%forecast_case_Ok case'. simpl.
  destruct (decide (case = case')) as [<-|Hne].
  - right. exists rX. by rewrite !lookup_insert_eq.
  - rewrite !lookup_insert_ne by done. apply IH.
Qed.

Lemma model_and_fit_outcome wn X Y sf pc p :
  outcome (model_and_fit wn X Y sf pc p)
  = Ok (train wn (build_model wn (estimated_r0 p * (Qc_of_Z pc / sf)
                                   / Qc_of_Z (incubation_days p))%Qc
                                 (Qc_of_Z pc / sf)%Qc)
              X Y (n_epochs p) (lr_step_size p)).
Proof. done. Qed.

Lemma pipeline_rate_Ok p loaded dates rate actives totals st :
  outcome (pipeline_rate p loaded dates rate (actives, totals)) = Ok st ↔
  ∃ active total,
    outcome (calibrate_and_forecast p loaded dates rate) = Ok (active, total)
    ∧ st = (<[rate := active]> actives, <[rate := total]> totals).
Proof.
  unfold pipeline_rate. rewrite outcome_bind_Ok. split.
  - intros ([active total] & Hcf & [= <-]). eauto.
  - intros (active & total & Hcf & ->). by exists (active, total).
Qed.

Lemma pipeline_Ok_inv p res :
  outcome (pipeline p) = Ok res →
  ∃ loaded date0,
    load_data get_data p = Ok loaded
    ∧ datetime (day0 loaded) = Ok date0
    ∧ pipeline p
      = for_each (reporting_rates p)
          (pipeline_rate p loaded (pipeline_dates p loaded date0)) (∅, ∅).
Proof.
  unfold pipeline.
  destruct (load_data get_data p) as [loaded|] eqn:Hload; [|done].
  rewrite (outcome_lift_bind _ _ loaded eq_refl).
  destruct (datetime (day0 loaded)) as [date0|] eqn:Hdate; [|done].
  rewrite (outcome_lift_bind _ _ date0 eq_refl). eauto.
Qed.

Lemma pipeline_unfold p loaded date0 :
  load_data get_data p = Ok loaded → datetime (day0 loaded) = Ok date0 →
  pipeline p
  = for_each (reporting_rates p)
      (pipeline_rate p loaded (pipeline_dates p loaded date0)) (∅, ∅).
Proof.
  intros Hload Hdate. unfold pipeline.
  by rewrite (outcome_lift_bind _ _ loaded Hload), (outcome_lift_bind _ _ date0 Hdate).
Qed.

(** Every entry of the two dicts that [pipeline] returns is the pair of
    dicts of one forecast, run with the scale factor of its key. *)
Lemma pipeline_entries p res loaded rate :
  outcome (pipeline p) = Ok res → load_data get_data p = Ok loaded →
  (res.1 !! rate = None ∧ res.2 !! rate = None)
  ∨ ∃ model dates active total,
      outcome (forecast (add_batch (mobility loaded)) model dates
                 (Qc_of_Z (population loaded) * rate)%Qc p) = Ok (active, total)
      ∧ res.1 !! rate = Some active ∧ res.2 !! rate = Some total.
Proof.
  intros Hres Hload.
  destruct (pipeline_Ok_inv _ _ Hres) as (loaded' & date0 & Hload' & _ & Heq).
  rewrite Hload in Hload'. injection Hload' as <-.
  rewrite Heq in Hres. clear Heq. revert rate.
  apply (for_each_invariant
    (λ st, ∀ rate,
       (st.1 !! rate = None ∧ st.2 !! rate = None)
       ∨ ∃ model dates active total,
           outcome (forecast (add_batch (mobility loaded)) model dates
                      (Qc_of_Z (population loaded) * rate)%Qc p) = Ok (active, total)
           ∧ st.1 !! rate = Some active ∧ st.2 !! rate = Some total)
    _ _ _ _ Hres); [by left|].
  intros rate [actives totals] st _ IH (active & total & Hcf & ->)%pipeline_rate_Ok rate'.
  simpl. destruct (decide (rate = rate')) as [<-|Hne].
  - right. unfold calibrate_and_forecast in Hcf.
    apply outcome_bind_Ok in Hcf as (model & _ & Hf).
    exists model, (pipeline_dates p loaded date0), active, total.
    by rewrite !lookup_insert_eq.
  - rewrite !lookup_insert_ne by done. apply IH.
Qed.

(** Every entry of the two dicts that [pipeline] returns is the pair of
    dicts of the forecast of the model fitted for its key, run with the
    scale factor of its key. *)
Lemma pipeline_entries_fitted p res loaded rate :
  outcome (pipeline p) = Ok res → load_data get_data p = Ok loaded →
  (res.1 !! rate = None ∧ res.2 !! rate = None)
  ∨ ∃ dates active total,
      outcome (forecast (add_batch (mobility loaded)) (fitted_model p loaded rate)
                 dates (Qc_of_Z (population loaded) * rate)%Qc p) = Ok (active, total)
      ∧ res.1 !! rate = Some active ∧ res.2 !! rate = Some total.
Proof.
  intros Hres Hload.
  destruct (pipeline_Ok_inv _ _ Hres) as (loaded' & date0 & Hload' & _ & Heq).
  rewrite Hload in Hload'. injection Hload' as <-.
  rewrite Heq in Hres. clear Heq. revert rate.
  apply (for_each_invariant
    (λ st, ∀ rate,
       (st.1 !! rate = None ∧ st.2 !! rate = None)
       ∨ ∃ dates active total,
           outcome (forecast (add_batch (mobility loaded)) (fitted_model p loaded rate)
                      dates (Qc_of_Z (population loaded) * rate)%Qc p) = Ok (active, total)
           ∧ st.1 !! rate = Some active ∧ st.2 !! rate = Some total)
    _ _ _ _ Hres); [by left|].
  intros rate [actives totals] st _ IH (active & total & Hcf & ->)%pipeline_rate_Ok rate'.
  cbn [fst snd]. destruct (decide (rate = rate')) as [<-|Hne].
  - right. unfold calibrate_and_forecast in Hcf.
    apply outcome_bind_Ok in Hcf as (model & Hm & Hf).
    rewrite model_and_fit_outcome in Hm. injection Hm as <-.
    exists (pipeline_dates p loaded date0), active, total.
    rewrite !lookup_insert_eq. split_and!; [exact Hf|done..].
  - rewrite !lookup_insert_ne by done. apply IH.
Qed.

End Loops.

(** ** Total and active cases *)

(** C4: when the model never returns a negative removed fraction, the
    reporting rates are not negative (as every rate of the specification's
    range (0,1] is) and the population of the records is positive, every
    forecast that [pipeline] stores under a reporting rate and a mobility
    case comes from one run of the model fitted for that rate on the
    trajectory of that case: on every day [t] the active series is the
    infectious fraction times [ScaleFactor = population x rate], the total
    series is the sum of the infectious and the removed fraction times
    [ScaleFactor], the two series have the same length, and
    [active[t] <= total[t]]. *)
Theorem pipeline_total_ge_active `{C : Collaborators} p res :
  (∀ model rX d, d ∈ run model rX → (0 ≤ removed d)%Qc) →
  (∀ rate, rate ∈ reporting_rates p → (0 ≤ rate)%Qc) →
  (∀ rec, rec ∈ get_data (paramdict p) → (0 < Population rec)%Z) →
  outcome (pipeline p) = Ok res →
  ∃ loaded,
    load_data get_data p = Ok loaded
    ∧ ∀ rate case active_r total_r active total,
        res.1 !! rate = Some active_r → res.2 !! rate = Some total_r →
        active_r !! case = Some active → total_r !! case = Some total →
        ∃ rX,
          scenario_input (add_batch (mobility loaded)) p case = Ok rX
          ∧ active
            = (λ d, infectious d * Spec.ScaleFactor (population loaded) rate)%Qc
                <$> run (fitted_model p loaded rate) rX
          ∧ total
            = (λ d, (infectious d + removed d)
                    * Spec.ScaleFactor (population loaded) rate)%Qc
                <$> run (fitted_model p loaded rate) rX
          ∧ length active = length total
          ∧ ∀ t x y, active !! t = Some x → total !! t = Some y → (x ≤ y)%Qc.
Proof.
  intros Hremoved Hrates Hpop Hres.
  destruct (pipeline_Ok_inv _ _ Hres) as (loaded & date0 & Hload & _ & Heq).
  exists loaded. split; [done|].
  intros rate case active_r total_r active total Har Htr Ha Ht.
  (* the key was one of the configured rates *)
  assert (rate ∈ reporting_rates p) as Hrate.
  { rewrite Heq in Hres.
    enough (∀ r, is_Some (res.1 !! r) → r ∈ reporting_rates p) as Hkeys
      by (apply Hkeys; by rewrite Har).
    apply (for_each_invariant
      (λ st, ∀ r, is_Some (st.1 !! r) → r ∈ reporting_rates p) _ _ _ _ Hres).
    - intros r [? Hr]. simpl in Hr. by rewrite lookup_empty in Hr.
    - intros r [actives totals] st Hin IH (a & t & _ & ->)%pipeline_rate_Ok r'. simpl.
      destruct (decide (r = r')) as [<-|Hne]; [done|].
      rewrite lookup_insert_ne by done. apply IH. }
  (* the scale factor is not negative *)
  assert (0 ≤ Spec.ScaleFactor (population loaded) rate)%Qc as Hsf.
  { apply Qcmult_nonneg_nonneg; [|by apply Hrates].
    destruct (load_data_Ok_inv _ _ _ Hload) as (_ & _ & _ & _ & _ & _ & Hp).
    apply loc_Ok in Hp as [_ Hp]. rewrite list_lookup_fmap in Hp.
    apply fmap_Some in Hp as (rec & Hrec & ->).
    rewrite <-Z2Qc_inj_0. apply (proj1 (Z2Qc_inj_le 0 (Population rec))).
    assert (0 < Population rec)%Z; [|lia].
    apply Hpop. by eapply list_elem_of_lookup_2. }
  destruct (pipeline_entries_fitted _ _ _ rate Hres Hload)
    as [[Hnone _]|(dates & a & t & Hf & Ha' & Ht')]; [congruence|].
  rewrite Har in Ha'. rewrite Htr in Ht'. injection Ha' as <-. injection Ht' as <-.
  destruct (forecast_entries _ _ _ _ _ _ _ case Hf)
    as [[Hnone _]|(rX & HrX & Hac & Htc)]; [congruence|].
  rewrite Ha in Hac. rewrite Ht in Htc. injection Hac as ->. injection Htc as ->.
  exists rX. split_and!; [done|done|done|by rewrite !length_fmap|].
  intros i x y. rewrite !list_lookup_fmap.
  intros (d & Hd & ->)%fmap_Some (d' & Hd' & ->)%fmap_Some.
  rewrite Hd in Hd'. injection Hd' as <-.
  apply Qcmult_le_compat_r; [|done].
  rewrite <-(Qcplus_0_r (infectious d)) at 1.
  apply Qcplus_le_mono_l. eapply Hremoved. by eapply list_elem_of_lookup_2.
Qed.

Lemma Qc_max_nonneg x : (0 ≤ Qc_max 0 x)%Qc.
Proof. unfold Qc_max. case_bool_decide; [by apply Qclt_le_weak|done]. Qed.

(** ** The calls of the fit *)

Section Fits.

Context `{C : Collaborators}.

Lemma fits_app tr1 tr2 : fits (tr1 ++ tr2) = fits tr1 ++ fits tr2.
Proof. apply filter_app. Qed.

Lemma fits_peaks tr : Forall (λ ev, is_fit ev = false) tr → fits tr = [].
Proof.
  induction 1 as [|ev tr Hev _ IH]; [done|].
  unfold fits. rewrite filter_cons_False by congruence. done.
Qed.

Lemma trace_bind_Forall {A B} (Q : Event → Prop) (m : Run A) (f : A → Run B) :
  Forall Q (trace m) → (∀ a, Forall Q (trace (f a))) → Forall Q (trace (m ≫= f)).
Proof.
  intros Hm Hf. rewrite trace_bind. apply Forall_app. split; [done|].
  destruct (outcome m); [done|by constructor].
Qed.

(** [forecast] prints peaks and calls no fit, whether it returns or raises. *)
Lemma forecast_trace_peaks X model dates sf p :
  Forall (λ ev, is_fit ev = false) (trace (forecast X model dates sf p)).
Proof.
  unfold forecast. apply for_each_trace_Forall. intros case [active total].
  unfold forecast_case.
  apply trace_bind_Forall; [by constructor|]. intros rX.
  apply trace_bind_Forall; [|by constructor].
  unfold report_peak.
  apply trace_bind_Forall; [by constructor|]. intros mx.
  apply trace_bind_Forall; [by constructor|]. intros idx.
  apply trace_bind_Forall; [by constructor|]. intros day.
  by repeat constructor.
Qed.

(** One iteration of the loop over the reporting rates calls the fit once,
    first of all, with the quantities of the specification. *)
Lemma pipeline_rate_fits p loaded dates rate st :
  fits (trace (pipeline_rate p loaded dates rate st)) = [Spec.calibration p loaded rate].
Proof.
  destruct st as [actives totals]. unfold pipeline_rate.
  rewrite trace_bind, fits_app.
  rewrite (fits_peaks (match outcome _ with Ok _ => _ | Raise _ => _ end));
    [|by destruct (outcome _) as [[??]|]; constructor].
  rewrite app_nil_r. unfold calibrate_and_forecast.
  rewrite trace_bind, fits_app, model_and_fit_outcome.
  rewrite (fits_peaks (trace (forecast _ _ _ _ _))) by apply forecast_trace_peaks.
  done.
Qed.

(** The loop calls the fit for a prefix of the configured rates, in their
    order: for all of them when it returns, and for the first one in any
    case. *)
Lemma pipeline_loop_fits p loaded dates rates st :
  ∃ k, fits (trace (for_each rates (pipeline_rate p loaded dates) st))
       = Spec.calibration p loaded <$> take k rates
       ∧ (rates ≠ [] → 0 < k)
       ∧ (∀ st', outcome (for_each rates (pipeline_rate p loaded dates) st) = Ok st' →
                 k = length rates).
Proof.
  revert st. induction rates as [|rate rates IH]; intros st.
  - exists 0. done.
  - rewrite for_each_cons, trace_bind, fits_app, pipeline_rate_fits.
    destruct (outcome (pipeline_rate p loaded dates rate st)) as [st1|e] eqn:Hst.
    + destruct (IH st1) as (k & Hk & _ & Hall). exists (S k). split_and!.
      * simpl. by rewrite Hk.
      * lia.
      * intros st' (st1' & Hst1 & Hrest)%outcome_bind_Ok. simpl.
        rewrite Hst in Hst1. injection Hst1 as <-. by rewrite <-(Hall st').
    + exists 1. split_and!; [done|lia|].
      intros st' (st1' & Hst1 & _)%outcome_bind_Ok. congruence.
Qed.

(** C5: on a run of [pipeline] that returns, the fit has been called once
    for every configured reporting rate, in their order, each time with the
    scale factor [population x rate], the cases divided by it, and the
    initial conditions [I0 = prevCases / ScaleFactor] and
    [E0 = estimatedR0 x I0 / incubationDays]; a population of 1,000,000 and
    a rate of 0.1 give the scale factor 100,000, with which 50 previous
    cases give [I0 = 0.0005], as exact rationals and as binary64 numbers
    (where 0.1 and 0.0005 are the doubles nearest to 1/10 and 5/10000). *)
Theorem pipeline_calibration p res :
  outcome (pipeline p) = Ok res →
  (∃ loaded,
     load_data get_data p = Ok loaded
     ∧ fits (trace (pipeline p)) = Spec.calibration p loaded <$> reporting_rates p)
  ∧ Spec.ScaleFactor 1000000 (Q2Qc (1 # 10)) = Qc_of_Z 100000
  ∧ Spec.I0 50 (Spec.ScaleFactor 1000000 (Q2Qc (1 # 10))) = Q2Qc (5 # 10000)
  ∧ Binary64.scale_factor 1000000 (1 / 10) = 100000%float
  ∧ Binary64.i0 50 (Binary64.scale_factor 1000000 (1 / 10)) = (5 / 10000)%float.
Proof.
  intros Hres.
  split; [|split_and!; [by apply Qc_is_canon|by apply Qc_is_canon|reflexivity..]].
  destruct (pipeline_Ok_inv _ _ Hres) as (loaded & date0 & Hload & _ & Heq).
  exists loaded. split; [done|]. rewrite Heq in Hres |- *.
  destruct (pipeline_loop_fits p loaded (pipeline_dates p loaded date0)
              (reporting_rates p) (∅, ∅)) as (k & -> & _ & Hall).
  rewrite (Hall _ Hres). by rewrite firstn_all.
Qed.



End Fits.

Lemma pipeline_calibration_witness :
  ∃ res loaded,
    outcome (pipeline (C := toy frame3) (config 1 1 false 0)) = Ok res
    ∧ load_data (λ _, frame3) (config 1 1 false 0) = Ok loaded
    ∧ population loaded = 1000000%Z
    ∧ prev_cases loaded = 50%Z
    ∧ fits (trace (pipeline (C := toy frame3) (config 1 1 false 0)))
      = [Spec.calibration (C := toy frame3) (config 1 1 false 0) loaded (Q2Qc (1 # 10))]
    ∧ Spec.I0 (prev_cases loaded) (Spec.ScaleFactor (population loaded) (Q2Qc (1 # 10)))
      = Q2Qc (5 # 10000).
Proof.
  destruct (outcome (pipeline (C := toy frame3) (config 1 1 false 0)))
    as [res|] eqn:Hres; [|by vm_compute in Hres].
  destruct (pipeline_calibration (C := toy frame3) (config 1 1 false 0) res Hres)
    as ((loaded & Hload & Hfits) & _ & Hi0 & _).
  exists res, loaded.
  assert (population loaded = 1000000%Z ∧ prev_cases loaded = 50%Z) as [Hpop Hprev].
  { vm_compute in Hload. by injection Hload as <-. }
  split_and!; [done..|]. by rewrite Hpop, Hprev.
Defined.


(** ** The order of the reporting rates *)

Section RateOrder.

Context `{C : Collaborators}.

(** Two iterations of the loop over the reporting rates commute: each
    stores, under its own key, what depends on its rate only. *)
Lemma pipeline_rate_comm p loaded dates x y st st2 :
  outcome (pipeline_rate p loaded dates x st ≫= pipeline_rate p loaded dates y) = Ok st2 →
  outcome (pipeline_rate p loaded dates y st ≫= pipeline_rate p loaded dates x) = Ok st2.
Proof.
  destruct st as [actives totals].
  intros (st1 & (ax & tx & Hx & ->)%pipeline_rate_Ok
              & (ay & ty & Hy & ->)%pipeline_rate_Ok)%outcome_bind_Ok.
  apply outcome_bind_Ok.
  exists (<[y := ay]> actives, <[y := ty]> totals).
  split; [apply pipeline_rate_Ok; eauto|].
  apply pipeline_rate_Ok. exists ax, tx. split; [done|].
  destruct (decide (x = y)) as [->|Hne].
  - rewrite Hx in Hy. by injection Hy as <- <-.
  - f_equal; by apply insert_insert_ne.
Qed.

(** C7: when [pipeline] returns for some order of the reporting rates, it
    returns for every permutation of them as well, and under every rate key
    both dicts hold the same forecasts (the fit and the projection are
    functions of their arguments in this model). *)
Theorem pipeline_rate_order p rates' res :
  reporting_rates p ≡ₚ rates' →
  outcome (pipeline p) = Ok res →
  ∃ res', outcome (pipeline (with_reporting_rates p rates')) = Ok res'
          ∧ ∀ rate, res'.1 !! rate = res.1 !! rate ∧ res'.2 !! rate = res.2 !! rate.
Proof.
  intros Hperm Hres.
  destruct (pipeline_Ok_inv _ _ Hres) as (loaded & date0 & Hload & Hdate & Heq).
  exists res. split; [|done].
  rewrite (pipeline_unfold (with_reporting_rates p rates') loaded date0 Hload Hdate).
  rewrite Heq in Hres.
  change (outcome (for_each rates' (pipeline_rate p loaded (pipeline_dates p loaded date0))
                     (∅, ∅)) = Ok res).
  eapply for_each_Permutation; [|done..].
  intros x y st st2. apply pipeline_rate_comm.
Qed.

End RateOrder.

Lemma pipeline_rate_order_witness :
  reporting_rates
    (with_reporting_rates (config 1 1 false 0)
       [Q2Qc (1 # 20); Q2Qc (1 # 10); Q2Qc (3 # 10)])
  ≡ₚ [Q2Qc (3 # 10); Q2Qc (1 # 20); Q2Qc (1 # 10)]
  ∧ ∃ res res',
      outcome (pipeline (C := toy frame3)
                 (with_reporting_rates (config 1 1 false 0)
                    [Q2Qc (1 # 20); Q2Qc (1 # 10); Q2Qc (3 # 10)])) = Ok res
      ∧ outcome (pipeline (C := toy frame3)
                   (with_reporting_rates
                      (with_reporting_rates (config 1 1 false 0)
                         [Q2Qc (1 # 20); Q2Qc (1 # 10); Q2Qc (3 # 10)])
                      [Q2Qc (3 # 10); Q2Qc (1 # 20); Q2Qc (1 # 10)])) = Ok res'
      ∧ ∀ rate, res'.1 !! rate = res.1 !! rate ∧ res'.2 !! rate = res.2 !! rate.
Proof.
  assert ([Q2Qc (1 # 20); Q2Qc (1 # 10); Q2Qc (3 # 10)]
          ≡ₚ [Q2Qc (3 # 10); Q2Qc (1 # 20); Q2Qc (1 # 10)]) as Hperm.
  { symmetry. apply (Permutation_cons_append [Q2Qc (1 # 20); Q2Qc (1 # 10)]). }
  split; [exact Hperm|].
  destruct (outcome (pipeline (C := toy frame3)
              (with_reporting_rates (config 1 1 false 0)
                 [Q2Qc (1 # 20); Q2Qc (1 # 10); Q2Qc (3 # 10)])))
    as [res|] eqn:Hres; [|by vm_compute in Hres].
  destruct (pipeline_rate_order (C := toy frame3)
              (with_reporting_rates (config 1 1 false 0)
                 [Q2Qc (1 # 20); Q2Qc (1 # 10); Q2Qc (3 # 10)])
              [Q2Qc (3 # 10); Q2Qc (1 # 20); Q2Qc (1 # 10)] res Hperm Hres)
    as (res' & Hres' & Hsame).
  by exists res, res'.
Defined.

(** * Further properties of the code *)

(** ** The outcomes of load_data *)

Lemma slice_to_neg_nil {A} (l : list A) d :
  l ≠ [] → slice_to (- d) l = [] ↔ (d = 0 ∨ Z.of_nat (length l) ≤ d)%Z.
Proof.
  intros Hl. assert (0 < length l) by (destruct l; [done|simpl; lia]).
  rewrite <-length_zero_iff_nil, length_slice_to.
  destruct (Z.ltb_spec (- d) 0).
  - rewrite slice_index_neg by done. lia.
  - rewrite slice_index_nonneg by done. lia.
Qed.

Lemma load_data_KeyError get_data p :
  (raw_length get_data p = 0 ∨ total_delay p < 0
   ∨ raw_length get_data p ≤ total_delay p)%Z →
  load_data get_data p = Raise KeyError.
Proof.
  unfold raw_length, total_delay, load_data. intros Hbad.
  set (df := get_data (paramdict p)) in *.
  destruct (loc (Population <$> df) 0) as [pop|e] eqn:Hpop.
  - apply loc_Ok in Hpop as [_ Hpop%lookup_lt_Some]. rewrite length_fmap in Hpop.
    destruct (loc (date <$> df) _) as [d0|e] eqn:Hd0.
    + apply loc_Ok in Hd0 as [? Hd0%lookup_lt_Some]. rewrite length_fmap in Hd0. lia.
    + simpl. unfold loc in Hd0. destruct (_ <? _)%Z; [congruence|].
      destruct (_ !! _); congruence.
  - simpl. unfold loc in Hpop. simpl in Hpop. destruct (_ !! _); congruence.
Qed.

Lemma load_data_lookups get_data p :
  (0 ≤ total_delay p < raw_length get_data p)%Z →
  ∃ pop d0 pc,
    loc (Population <$> get_data (paramdict p)) 0 = Ok pop
    ∧ loc (date <$> get_data (paramdict p)) (delay_days p + start_model p) = Ok d0
    ∧ loc (Cases <$> get_data (paramdict p))
          (delay_days p + start_model p
           - (if (0 <? delay_days p + start_model p)%Z then 1 else 0)) = Ok pc.
Proof.
  unfold raw_length, total_delay. intros Htd.
  destruct (loc_in_range (Population <$> get_data (paramdict p)) 0) as [pop Hpop];
    [rewrite length_fmap; lia|].
  destruct (loc_in_range (date <$> get_data (paramdict p))
              (delay_days p + start_model p)) as [d0 Hd0]; [rewrite length_fmap; lia|].
  destruct (loc_in_range (Cases <$> get_data (paramdict p))
    (delay_days p + start_model p
     - (if (0 <? delay_days p + start_model p)%Z then 1 else 0))) as [pc Hpc].
  { rewrite length_fmap. destruct (Z.ltb_spec 0 (delay_days p + start_model p)); lia. }
  eauto 10.
Qed.

Lemma load_data_IndexError get_data p :
  (0 ≤ total_delay p < raw_length get_data p)%Z →
  (delay_days p = 0 ∨ raw_length get_data p ≤ delay_days p)%Z →
  load_data get_data p = Raise IndexError.
Proof.
  intros Htd Hd. destruct (load_data_lookups _ _ Htd) as (pop & d0 & pc & Hpop & Hd0 & Hpc).
  unfold load_data. rewrite Hpop, Hd0, Hpc. simpl.
  unfold raw_length in *.
  assert (slice_to (- delay_days p) (MOBILITY_KEYS <$> get_data (paramdict p)) = [])
    as ->; [|done].
  apply slice_to_neg_nil; [|by rewrite length_fmap].
  intros Hnil%(f_equal length). rewrite length_fmap in Hnil. simpl in Hnil. lia.
Qed.

Lemma load_data_Ok_cond get_data p :
  (0 ≤ total_delay p < raw_length get_data p)%Z →
  delay_days p ≠ 0%Z → (delay_days p < raw_length get_data p)%Z →
  ∃ r, load_data get_data p = Ok r.
Proof.
  intros Htd Hd0' Hdn.
  destruct (load_data_lookups _ _ Htd) as (pop & d0 & pc & Hpop & Hd0 & Hpc).
  unfold load_data. rewrite Hpop, Hd0, Hpc. simpl. unfold raw_length in *.
  destruct (set_last_last_is_Ok (Qc_of_Z 17)
    (slice_to (- delay_days p) (MOBILITY_KEYS <$> get_data (paramdict p)))) as [a ->].
  - intros Hnil. apply slice_to_neg_nil in Hnil; [rewrite length_fmap in Hnil; lia|].
    intros Hnil'%(f_equal length). rewrite length_fmap in Hnil'. simpl in Hnil'. lia.
  - apply Forall_forall. intros row Hrow. unfold slice_to in Hrow.
    apply list_elem_of_lookup in Hrow as [i Hrow].
    apply lookup_take_Some in Hrow as [Hrow _].
    rewrite list_lookup_fmap in Hrow.
    apply fmap_Some in Hrow as (rec & _ & ->). done.
  - simpl. eauto.
Qed.

(** X1: what [load_data] does is decided by the number of records [n], the
    total delay and the delay alone.  It raises KeyError exactly when the
    frame is empty or the total delay is not an index of the frame; it
    raises IndexError (at line 70) exactly when the total delay is an index
    and the delay is 0 or at least [n]; it returns in all other cases, and
    raises nothing else. *)
Theorem load_data_outcome get_data p :
  (load_data get_data p = Raise KeyError ↔
     (raw_length get_data p = 0 ∨ total_delay p < 0
      ∨ raw_length get_data p ≤ total_delay p)%Z)
  ∧ (load_data get_data p = Raise IndexError ↔
       (0 ≤ total_delay p < raw_length get_data p)%Z
       ∧ (delay_days p = 0 ∨ raw_length get_data p ≤ delay_days p)%Z)
  ∧ ((∃ r, load_data get_data p = Ok r) ↔
       (0 ≤ total_delay p < raw_length get_data p)%Z
       ∧ delay_days p ≠ 0%Z ∧ (delay_days p < raw_length get_data p)%Z)
  ∧ load_data get_data p ≠ Raise ValueError
  ∧ load_data get_data p ≠ Raise RuntimeError.
Proof.
  destruct (decide (raw_length get_data p = 0 ∨ total_delay p < 0
                    ∨ raw_length get_data p ≤ total_delay p)%Z) as [Hk|Hk].
  { rewrite (load_data_KeyError _ _ Hk). split_and!.
    - done.
    - split; [done|]. intros [? _]. lia.
    - split; [by intros [r ?]|]. intros (? & _). lia.
    - done.
    - done. }
  assert (0 ≤ total_delay p < raw_length get_data p)%Z as Htd by lia.
  destruct (decide (delay_days p = 0 ∨ raw_length get_data p ≤ delay_days p)%Z)
    as [Hi|Hi].
  { rewrite (load_data_IndexError _ _ Htd Hi). split_and!.
    - split; [done|]. intros ?. lia.
    - done.
    - split; [by intros [r ?]|]. intros (_ & ? & ?). lia.
    - done.
    - done. }
  destruct (load_data_Ok_cond get_data p) as [r ->]; [lia..|]. split_and!.
  - split; [done|]. intros ?. lia.
  - split; [done|]. intros [_ ?]. lia.
  - split; [intros _; split_and!; lia|eauto].
  - done.
  - done.
Qed.

(** ** The aligned series and the raw records *)

Lemma set_last_last_lookup {A} (x : A) a a' t row' :
  set_last_last x a = Ok a' → a' !! t = Some row' →
  ∃ row, a !! t = Some row
         ∧ ∀ j, S j < length row → row' !! j = row !! j.
Proof.
  unfold set_last_last. destruct (last a) as [lrow|] eqn:Hlast; [|done].
  unfold set_last. destruct lrow as [|c lrow]; [done|]. simpl.
  intros [= <-] Ht.
  destruct (decide (t = Nat.pred (length a))) as [->|Hne].
  - rewrite last_lookup in Hlast.
    apply list_lookup_insert_Some in Ht as [(_ & <- & _)|(? & _)]; [|done].
    eexists. split; [done|]. intros j Hj. simpl in Hj.
    apply list_lookup_insert_ne. lia.
  - rewrite list_lookup_insert_ne in Ht by done. eauto.
Qed.

Lemma format_data_values p a t row :
  six_columns a → (0 ≤ start_model p)%Z →
  format_data p a !! t = Some row →
  ∃ row0, a !! (Z.to_nat (start_model p) + t) = Some row0
          ∧ ∀ j, j < 5 →
              row !! j = (λ x, (1 + x / Qc_of_Z 100)%Qc) <$> row0 !! j.
Proof.
  intros Hsix Hs Hrow.
  assert (t < length (format_data p a)) as Hlt by (by eapply lookup_lt_Some).
  rewrite length_format_data, slice_index_nonneg in Hlt by done.
  revert Hrow. unfold format_data, slice_from.
  set (conv := map_cols_to 6 _ a).
  assert (length (set_col 5 0%Qc conv) = length a) as Hlen0
    by (unfold set_col, conv, map_cols_to; by rewrite !length_fmap).
  assert (∀ i row1, set_col 5 0%Qc conv !! i = Some row1 →
            ∃ row0, a !! i = Some row0
                    ∧ ∀ j, j < 5 →
                        row1 !! j = (λ x, (1 + x / Qc_of_Z 100)%Qc) <$> row0 !! j)
    as Hconv.
  { intros i row1. unfold set_col, conv, map_cols_to. rewrite !list_lookup_fmap.
    intros (row2 & (row0 & Hrow0 & ->)%fmap_Some & ->)%fmap_Some.
    exists row0. split; [done|]. intros j Hj.
    pose proof (Forall_lookup_1 _ _ _ _ Hsix Hrow0) as Hlen. simpl in Hlen.
    rewrite list_lookup_insert_ne by lia.
    rewrite lookup_app_l by (rewrite length_fmap, length_take; lia).
    rewrite list_lookup_fmap, lookup_take_lt by lia. done. }
  destruct (mask_modifier p).
  - rewrite length_set_col_from, Hlen0, slice_index_nonneg by done.
    replace (Z.to_nat (start_model p) `min` length a) with (Z.to_nat (start_model p)) by lia.
    rewrite lookup_drop, set_col_from_lookup.
    intros (row1 & Hrow1 & ->)%fmap_Some.
    destruct (Hconv _ _ Hrow1) as (row0 & Hrow0 & Hvals).
    exists row0. split; [done|]. intros j Hj.
    case_bool_decide; [rewrite list_lookup_insert_ne by lia|]; by apply Hvals.
  - rewrite Hlen0, slice_index_nonneg by done.
    replace (Z.to_nat (start_model p) `min` length a) with (Z.to_nat (start_model p)) by lia.
    rewrite lookup_drop. apply Hconv.
Qed.

(** X2: with a positive delay that leaves days to fit, [load_data] returns,
    and both aligned series have [rawLength - delay_days - start_model]
    entries. *)
Theorem load_data_aligned_lengths get_data p :
  (0 < delay_days p)%Z → (0 ≤ start_model p)%Z →
  (0 < raw_length get_data p - delay_days p - start_model p)%Z →
  ∃ r, load_data get_data p = Ok r
       ∧ Z.of_nat (length (mobility r))
         = (raw_length get_data p - delay_days p - start_model p)%Z
       ∧ Z.of_nat (length (cases r))
         = (raw_length get_data p - delay_days p - start_model p)%Z.
Proof.
  intros Hd Hs Hn. destruct (load_data_returns get_data p Hd Hs Hn) as [r Hr].
  exists r. split; [done|]. by apply load_data_lengths.
Qed.

Lemma load_data_aligned_lengths_witness :
  (0 < delay_days default_params)%Z
  ∧ (0 ≤ start_model default_params)%Z
  ∧ ∃ r, load_data (λ _, frame_of_length 40) default_params = Ok r
         ∧ length (mobility r) = 7 ∧ length (cases r) = 7.
Proof.
  split; [simpl; lia|]. split; [simpl; lia|].
  destruct (load_data_aligned_lengths (λ _, frame_of_length 40) default_params)
    as (r & Hr & Hm & Hc); [simpl; lia|simpl; lia|reflexivity|].
  exists r. split; [done|].
  change (raw_length (λ _, frame_of_length 40) default_params
          - delay_days default_params - start_model default_params)%Z
    with 7%Z in Hm, Hc. lia.
Defined.

(** X3: with a positive delay and a non-negative [start_model], entry [t]
    of the returned case series is the case count of raw day
    [delay_days + start_model + t], and row [t] of the returned mobility
    comes from raw day [start_model + t]: its first five columns are
    [1 + v / 100] for the raw percentages [v].  So the cases on a row are
    those recorded [delay_days] days after its mobility. *)
Theorem load_data_alignment get_data p r :
  (0 < delay_days p)%Z → (0 ≤ start_model p)%Z →
  load_data get_data p = Ok r →
  (∀ t, cases r !! t
        = Cases <$> get_data (paramdict p)
                      !! (Z.to_nat (delay_days p + start_model p) + t))
  ∧ (∀ t row, mobility r !! t = Some row →
       ∃ rec, get_data (paramdict p) !! (Z.to_nat (start_model p) + t) = Some rec
              ∧ ∀ j, j < 5 →
                  row !! j
                  = (λ x, (1 + x / Qc_of_Z 100)%Qc) <$> MOBILITY_KEYS rec !! j).
Proof.
  intros Hd Hs Hr.
  destruct (load_data_Ok_inv _ _ _ Hr) as (a & Ha & Hmob & Hcases & Hd0 & _).
  apply loc_Ok in Hd0 as [_ Hd0%lookup_lt_Some]. rewrite length_fmap in Hd0.
  unfold total_delay in Hd0. split.
  - intros t. rewrite Hcases. unfold slice_from.
    rewrite !lookup_drop, length_drop, !length_fmap.
    rewrite !slice_index_nonneg by lia. rewrite list_lookup_fmap.
    f_equal. f_equal. lia.
  - intros t row Hrow. rewrite Hmob in Hrow.
    assert (six_columns a) as Hsix.
    { eapply six_columns_set_last_last; [done|]. apply six_columns_frame. }
    destruct (format_data_values _ _ _ _ Hsix Hs Hrow) as (row1 & Hrow1 & Hvals).
    destruct (set_last_last_lookup _ _ _ _ _ Ha Hrow1) as (row0 & Hrow0 & Hsame).
    unfold slice_to in Hrow0. apply lookup_take_Some in Hrow0 as [Hrow0 _].
    rewrite list_lookup_fmap in Hrow0.
    apply fmap_Some in Hrow0 as (rec & Hrec & ->).
    exists rec. split; [done|]. intros j Hj.
    rewrite Hvals by done. f_equal. apply Hsame. simpl. lia.
Qed.

Lemma load_data_alignment_witness :
  (0 < delay_days default_params)%Z
  ∧ (0 ≤ start_model default_params)%Z
  ∧ ∃ r row,
      load_data (λ _, frame_of_length 40) default_params = Ok r
      ∧ cases r !! 0 = Some 330%Z
      ∧ mobility r !! 0 = Some row
      ∧ row !! 0 = Some (Q2Qc (77 # 100)).
Proof.
  split; [simpl; lia|]. split; [simpl; lia|].
  destruct (load_data (λ _, frame_of_length 40) default_params) as [r|] eqn:Hr;
    [|by vm_compute in Hr].
  destruct (load_data_alignment (λ _, frame_of_length 40) default_params r)
    as [Hc Hm]; [simpl; lia|simpl; lia|done|].
  destruct (mobility r !! 0) as [row|] eqn:Hrow;
    [|vm_compute in Hr; injection Hr as <-; by vm_compute in Hrow].
  exists r, row. split_and!; [done| |done|].
  - rewrite Hc. reflexivity.
  - destruct (Hm 0 row Hrow) as (rec & Hrec & Hvals).
    rewrite (Hvals 0) by lia. vm_compute in Hrec. injection Hrec as <-.
    simpl. f_equal; try by apply Qc_is_canon.
Defined.

(** X4: whenever [load_data] returns, the total delay is not negative,
    [day0] is the date of the raw record at that index, [prev_cases] is the
    case count of the record before it (of the record itself when the index
    is 0), and [population] is the population of the first record. *)
Theorem load_data_scalars get_data p r :
  load_data get_data p = Ok r →
  (0 ≤ total_delay p)%Z
  ∧ date <$> get_data (paramdict p) !! Z.to_nat (total_delay p) = Some (day0 r)
  ∧ Cases <$> get_data (paramdict p) !! Nat.pred (Z.to_nat (total_delay p))
    = Some (prev_cases r)
  ∧ Population <$> get_data (paramdict p) !! 0 = Some (population r).
Proof.
  intros Hr.
  destruct (load_data_Ok_inv _ _ _ Hr) as (_ & _ & _ & _ & Hd0 & Hpc & Hpop).
  apply loc_Ok in Hd0 as [Htd Hd0]. apply loc_Ok in Hpc as [_ Hpc].
  apply loc_Ok in Hpop as [_ Hpop].
  rewrite list_lookup_fmap in Hd0. rewrite list_lookup_fmap in Hpc.
  rewrite list_lookup_fmap in Hpop. split_and!; [done..| |done].
  rewrite <-Hpc. do 2 f_equal. destruct (Z.ltb_spec 0 (total_delay p)); lia.
Qed.

Lemma load_data_scalars_witness :
  ∃ r, load_data (λ _, frame_of_length 40) default_params = Ok r
       ∧ day0 r = "2020-d33" ∧ prev_cases r = 320%Z ∧ population r = 1000000%Z.
Proof.
  destruct (load_data (λ _, frame_of_length 40) default_params) as [r|] eqn:Hr;
    [|by vm_compute in Hr].
  destruct (load_data_scalars (λ _, frame_of_length 40) default_params r Hr)
    as (_ & Hd0 & Hpc & Hpop).
  exists r. split_and!; [done|..]; apply (inj Some).
  - rewrite <-Hd0. reflexivity.
  - rewrite <-Hpc. reflexivity.
  - rewrite <-Hpop. reflexivity.
Defined.

(** ** The scenario block of a forecast *)

Lemma length_mask_overwrite p (rX : Tensor3) :
  length (mask_overwrite p rX) = length rX.
Proof.
  unfold mask_overwrite. destruct (mask_modifier p); [|done].
  rewrite length_app, length_fmap, length_take, length_drop.
  pose proof (slice_index_le (length rX) (mask_day p)). lia.
Qed.

(** X5: a negative [forecast_days] makes the construction of the trajectory
    raise RuntimeError.  Otherwise the trajectory has the days of the
    history followed by [forecast_days] future days, and on every future day
    the five mobility channels are [case / 100] and the mandate channel is 1
    when mask-modeling is on and the day is at or after [mask_day], else 0. *)
Theorem scenario_input_future (X : Tensor3) p case :
  (0 ≤ mask_day p)%Z →
  ((forecast_days p < 0)%Z → scenario_input X p case = Raise RuntimeError)
  ∧ ((0 ≤ forecast_days p)%Z →
     ∃ rX, scenario_input X p case = Ok rX
           ∧ length rX = length X + Z.to_nat (forecast_days p)
           ∧ ∀ t, length X ≤ t < length X + Z.to_nat (forecast_days p) →
               rX !! t
               = Some [replicate 5 (1 * case / Qc_of_Z 100)%Qc
                       ++ [if mask_modifier p && bool_decide (mask_day p ≤ Z.of_nat t)%Z
                           then 1%Qc else 0%Qc]]).
Proof.
  intros Hm. unfold scenario_input, scenario_cat. split.
  - intros HF. by rewrite (proj2 (Z.ltb_lt _ _) HF).
  - intros HF. rewrite (proj2 (Z.ltb_ge _ _) HF). simpl.
    eexists. split; [done|].
    split; [by rewrite length_mask_overwrite, length_app, length_replicate|].
    intros t Ht. rewrite mask_overwrite_lookup.
    rewrite lookup_app_r by lia.
    rewrite lookup_replicate_2 by lia. simpl.
    rewrite length_app, length_replicate, slice_index_nonneg by done.
    destruct (mask_modifier p); simpl; [|done].
    case_bool_decide; [rewrite bool_decide_eq_true_2 by lia
                      |rewrite bool_decide_eq_false_2 by lia]; done.
Qed.

Lemma scenario_input_future_witness :
  (0 ≤ mask_day (config 1 1 true 3))%Z
  ∧ ∃ rX, scenario_input [[[1; 1; 1; 1; 1; 0]]]%Qc (config 1 1 true 3) (Qc_of_Z 50)
          = Ok rX
          ∧ length rX = 3
          ∧ mandate3 rX 1 = Some 0%Qc ∧ mandate3 rX 2 = Some 0%Qc.
Proof.
  split; [simpl; lia|].
  destruct (scenario_input_future [[[1; 1; 1; 1; 1; 0]]]%Qc (config 1 1 true 3)
              (Qc_of_Z 50)) as [_ Hfut]; [simpl; lia|].
  destruct Hfut as (rX & HrX & Hlen & Hrows); [simpl; lia|].
  exists rX. split; [done|]. split; [exact Hlen|].
  unfold mandate3. rewrite (Hrows 1), (Hrows 2) by (simpl; lia). done.
Defined.

(** ** The peak that forecast reports *)

(** The scan of [np.argmax] and [np.max] from a running maximum: either
    nothing exceeds it, or the result is the first entry that attains the
    maximum. *)
Lemma argmax_from_spec best_i best i l :
  (argmax_from best_i best i l = best_i ∧ foldl Qc_max best l = best
   ∧ ∀ w, w ∈ l → (w ≤ best)%Qc)
  ∨ ∃ j v, argmax_from best_i best i l = i + j ∧ foldl Qc_max best l = v
           ∧ l !! j = Some v ∧ (best < v)%Qc
           ∧ (∀ j' w, j' < j → l !! j' = Some w → (w < v)%Qc)
           ∧ ∀ w, w ∈ l → (w ≤ v)%Qc.
Proof.
  revert best_i best i. induction l as [|x l IH]; intros best_i best i.
  - left. split_and!; [done..|]. by intros w ?%elem_of_nil.
  - simpl. unfold Qc_max at 2 4. case_bool_decide as Hx.
    + right. destruct (IH i x (S i)) as [(-> & -> & Hall)|(j & v & -> & -> & Hj & Hv & Hbefore & Hall)].
      * exists 0, x. split_and!; [lia|done..| |].
        -- intros j' w Hj'. lia.
        -- intros w [->|Hw]%elem_of_cons; [done|by apply Hall].
      * exists (S j), v. split_and!; [lia|done|done|by etrans| |].
        -- intros [|j'] w Hj' Hw; simpl in Hw; [by injection Hw as <-|].
           apply (Hbefore j'); [lia|done].
        -- intros w [->|Hw]%elem_of_cons; [by apply Qclt_le_weak|by apply Hall].
    + apply Qcnot_lt_le in Hx.
      destruct (IH best_i best (S i)) as [(-> & -> & Hall)|(j & v & -> & -> & Hj & Hv & Hbefore & Hall)].
      * left. split_and!; [done..|].
        intros w [->|Hw]%elem_of_cons; [done|by apply Hall].
      * right. exists (S j), v. split_and!; [lia|done|done|done| |].
        -- intros [|j'] w Hj' Hw; simpl in Hw;
             [injection Hw as <-; by eapply Qcle_lt_trans|].
           apply (Hbefore j'); [lia|done].
        -- intros w [->|Hw]%elem_of_cons;
             [apply Qclt_le_weak; by eapply Qcle_lt_trans|by apply Hall].
Qed.

Lemma np_argmax_max_spec l :
  l ≠ [] →
  ∃ k v, np_argmax l = Ok k ∧ np_max l = Ok v ∧ l !! k = Some v
         ∧ (∀ w, w ∈ l → (w ≤ v)%Qc)
         ∧ ∀ j w, j < k → l !! j = Some w → (w < v)%Qc.
Proof.
  destruct l as [|x l]; [done|]. intros _. simpl.
  destruct (argmax_from_spec 0 x 1 l)
    as [(-> & -> & Hall)|(j & v & -> & -> & Hj & Hv & Hbefore & Hall)].
  - exists 0, x. split_and!; [done..| |].
    + intros w [->|Hw]%elem_of_cons; [done|by apply Hall].
    + intros j w Hj. lia.
  - exists (S j), v. split_and!; [done..| |].
    + intros w [->|Hw]%elem_of_cons; [by apply Qclt_le_weak|by apply Hall].
    + intros [|j'] w Hj' Hw; simpl in Hw; [by injection Hw as <-|].
      apply (Hbefore j'); [lia|done].
Qed.

Lemma report_peak_spec `{C : Collaborators}
    (case : Qc) (active : list Qc) (dates : list Date) :
  active ≠ [] → length active ≤ length dates →
  ∃ v k d,
    report_peak case active dates = mkRun [Peak case v k d] (Ok tt)
    ∧ active !! k = Some v ∧ dates !! k = Some d
    ∧ (∀ w, w ∈ active → (w ≤ v)%Qc)
    ∧ ∀ j w, j < k → active !! j = Some w → (w < v)%Qc.
Proof.
  intros Hne Hlen.
  destruct (np_argmax_max_spec active Hne) as (k & v & Hidx & Hmax & Hk & Hall & Hfirst).
  destruct (lookup_lt_is_Some_2 dates k) as [d Hd].
  { apply lookup_lt_Some in Hk. lia. }
  exists v, k, d. split_and!; [|done..].
  unfold report_peak.
  rewrite (outcome_lift_bind _ _ v Hmax), (outcome_lift_bind _ _ k Hidx).
  rewrite (outcome_lift_bind _ _ d); [done|]. unfold item. by rewrite Hd.
Qed.

(** X6: on a non-empty active series that is not longer than the date
    axis, the reporting step of [forecast] prints one peak line and raises
    nothing; the value printed is an entry of the series that no entry
    exceeds, and the day printed is the first day with that value, with its
    date.  Ties are resolved towards the earliest day. *)
Theorem report_peak_first_maximum `{C : Collaborators}
    (case : Qc) (active : list Qc) (dates : list Date) :
  active ≠ [] → length active ≤ length dates →
  ∃ v k d,
    report_peak case active dates = mkRun [Peak case v k d] (Ok tt)
    ∧ active !! k = Some v ∧ dates !! k = Some d
    ∧ (∀ w, w ∈ active → (w ≤ v)%Qc)
    ∧ ∀ j w, j < k → active !! j = Some w → (w < v)%Qc.
Proof. apply report_peak_spec. Qed.

Lemma report_peak_first_maximum_witness :
  [Qc_of_Z 3; Qc_of_Z 9; Qc_of_Z 9; Qc_of_Z 8] ≠ []
  ∧ ∃ v d,
      report_peak (C := toy frame3) (Qc_of_Z 50)
        [Qc_of_Z 3; Qc_of_Z 9; Qc_of_Z 9; Qc_of_Z 8] toy_dates
      = mkRun [Peak (C := toy frame3) (Qc_of_Z 50) v 1 d] (Ok tt).
Proof.
  split; [done|].
  destruct (report_peak_first_maximum (C := toy frame3) (Qc_of_Z 50)
              [Qc_of_Z 3; Qc_of_Z 9; Qc_of_Z 9; Qc_of_Z 8] toy_dates)
    as (v & k & d & Hrep & Hk & Hd & Hall & Hfirst); [done|simpl; lia|].
  assert (k = 1) as ->.
  { destruct k as [|[|[|[|k]]]]; [| done | | |by simpl in Hk].
    - injection Hk as <-. specialize (Hall (Qc_of_Z 9)).
      exfalso. apply (Qclt_not_le (Qc_of_Z 3) (Qc_of_Z 9)); [done|].
      apply Hall. set_solver.
    - injection Hk as <-. exfalso.
      apply (Qclt_not_eq (Qc_of_Z 9) (Qc_of_Z 9)); [|done].
      by apply (Hfirst 1).
    - injection Hk as <-. exfalso.
      apply (Qclt_not_le (Qc_of_Z 8) (Qc_of_Z 9)); [done|].
      apply Hall. set_solver. }
  by exists v, d.
Defined.

(** ** One forecast per reporting rate and mobility case *)

Section Entries.

Context `{C : Collaborators}.

Lemma peak_cases_app tr1 tr2 :
  peak_cases (tr1 ++ tr2) = peak_cases tr1 ++ peak_cases tr2.
Proof. apply omap_app. Qed.

Lemma report_peak_Ok case active dates u :
  outcome (report_peak case active dates) = Ok u →
  ∃ v k d, report_peak case active dates = mkRun [Peak case v k d] (Ok tt).
Proof.
  unfold report_peak.
  destruct (np_max active) as [v|e] eqn:Hmax; [|done].
  rewrite (outcome_lift_bind _ _ v eq_refl).
  destruct (np_argmax active) as [k|e] eqn:Hidx; [|done].
  rewrite (outcome_lift_bind _ _ k eq_refl).
  destruct (item dates k) as [d|e] eqn:Hd; [|done].
  rewrite (outcome_lift_bind _ _ d eq_refl). eauto.
Qed.

Lemma forecast_case_peak X model dates sf p case st st' :
  outcome (forecast_case X model dates sf p case st) = Ok st' →
  peak_cases (trace (forecast_case X model dates sf p case st)) = [case].
Proof.
  destruct st as [active total]. unfold forecast_case.
  destruct (scenario_input X p case) as [rX|e] eqn:HrX; [|done].
  rewrite (outcome_lift_bind _ _ rX eq_refl).
  intros ([] & (v & k & d & Hrep)%report_peak_Ok & _)%outcome_bind_Ok.
  rewrite trace_bind, Hrep. done.
Qed.

Lemma forecast_loop_keys X model dates sf p l st st' :
  outcome (for_each l (forecast_case X model dates sf p) st) = Ok st' →
  dom st'.1 = dom st.1 ∪ list_to_set l
  ∧ dom st'.2 = dom st.2 ∪ list_to_set l
  ∧ peak_cases (trace (for_each l (forecast_case X model dates sf p) st)) = l.
Proof.
  revert st. induction l as [|case l IH]; intros st.
  - intros [= <-]. simpl. split_and!; [set_solver..|done].
  - rewrite for_each_cons. intros (st1 & H1 & Hrest)%outcome_bind_Ok.
    destruct (IH _ Hrest) as (Hd1 & Hd2 & Hpeaks).
    rewrite trace_bind, H1, peak_cases_app, Hpeaks.
    rewrite (forecast_case_peak _ _ _ _ _ _ _ _ H1).
    destruct st as [active total].
    apply forecast_case_Ok in H1 as (rX & _ & ->). simpl in *.
    rewrite Hd1, Hd2, !dom_insert_L. split_and!; [set_solver..|done].
Qed.

Lemma forecast_one_entry_per_case_aux X model dates sf p st :
  outcome (forecast X model dates sf p) = Ok st →
  dom st.1 = list_to_set (mobility_cases p)
  ∧ dom st.2 = list_to_set (mobility_cases p)
  ∧ peak_cases (trace (forecast X model dates sf p)) = mobility_cases p.
Proof.
  unfold forecast. intros (Ha & Ht & Hpeaks)%forecast_loop_keys.
  simpl in Ha, Ht. rewrite dom_empty_L in Ha, Ht.
  split_and!; [set_solver..|done].
Qed.

(** X7: when [forecast] returns, both dicts have exactly the configured
    mobility cases as keys, and one peak line has been printed for every
    configured case, in the configured order (a case configured twice is
    printed twice and stored once). *)
Theorem forecast_one_entry_per_case X model dates sf p active total :
  outcome (forecast X model dates sf p) = Ok (active, total) →
  dom active = list_to_set (mobility_cases p)
  ∧ dom total = list_to_set (mobility_cases p)
  ∧ peak_cases (trace (forecast X model dates sf p)) = mobility_cases p.
Proof.
  intros Hf. by apply forecast_one_entry_per_case_aux in Hf.
Qed.

(** X8: when [forecast] returns, the two series stored under a mobility
    case are the output of one run of the model on the trajectory of that
    case: day by day, active is the infectious fraction times the scale
    factor, and total exceeds active by the removed fraction times the
    scale factor. *)
Theorem forecast_total_minus_active X model dates sf p active total case a tt :
  outcome (forecast X model dates sf p) = Ok (active, total) →
  active !! case = Some a → total !! case = Some tt →
  ∃ rX, scenario_input X p case = Ok rX
        ∧ length a = length (run model rX)
        ∧ length tt = length (run model rX)
        ∧ ∀ t d, run model rX !! t = Some d →
            a !! t = Some (infectious d * sf)%Qc
            ∧ tt !! t = Some (infectious d * sf + removed d * sf)%Qc.
Proof.
  intros Hf Ha Ht.
  destruct (forecast_entries _ _ _ _ _ _ _ case Hf)
    as [[Hnone _]|(rX & HrX & Hac & Htc)]; [congruence|].
  rewrite Ha in Hac. rewrite Ht in Htc. injection Hac as ->. injection Htc as ->.
  exists rX. split_and!; [done|by rewrite length_fmap..|].
  intros t d Hd. rewrite !list_lookup_fmap, Hd. simpl.
  split; [done|]. f_equal. ring.
Qed.

Lemma pipeline_rate_peaks p loaded dates rate st st' :
  outcome (pipeline_rate p loaded dates rate st) = Ok st' →
  peak_cases (trace (pipeline_rate p loaded dates rate st)) = mobility_cases p.
Proof.
  destruct st as [actives totals].
  intros (active & total & Hcf & _)%pipeline_rate_Ok.
  unfold pipeline_rate. rewrite trace_bind, Hcf.
  change (trace (mret _)) with (@nil Event). rewrite app_nil_r.
  unfold calibrate_and_forecast in Hcf |- *.
  apply outcome_bind_Ok in Hcf as (model & Hm & Hf).
  rewrite model_and_fit_outcome in Hm. injection Hm as <-.
  rewrite trace_bind, model_and_fit_outcome, peak_cases_app.
  by apply forecast_one_entry_per_case_aux in Hf as (_ & _ & ->).
Qed.

Lemma pipeline_loop_keys p loaded dates l st st' :
  outcome (for_each l (pipeline_rate p loaded dates) st) = Ok st' →
  dom st'.1 = dom st.1 ∪ list_to_set l
  ∧ dom st'.2 = dom st.2 ∪ list_to_set l
  ∧ peak_cases (trace (for_each l (pipeline_rate p loaded dates) st))
    = l ≫= (λ _, mobility_cases p).
Proof.
  revert st. induction l as [|rate l IH]; intros st.
  - intros [= <-]. split_and!; [set_solver..|done].
  - rewrite for_each_cons. intros (st1 & H1 & Hrest)%outcome_bind_Ok.
    destruct (IH _ Hrest) as (Hd1 & Hd2 & Hpeaks).
    rewrite trace_bind, H1, peak_cases_app, Hpeaks.
    rewrite (pipeline_rate_peaks _ _ _ _ _ _ H1).
    destruct st as [actives totals].
    apply pipeline_rate_Ok in H1 as (active & total & _ & ->).
    rewrite Hd1, Hd2. cbn [fst snd]. rewrite !dom_insert_L.
    split_and!; [set_solver..|done].
Qed.

Lemma pipeline_keys_aux p res :
  outcome (pipeline p) = Ok res →
  dom res.1 = list_to_set (reporting_rates p)
  ∧ dom res.2 = list_to_set (reporting_rates p)
  ∧ (∀ rate active, res.1 !! rate = Some active →
       dom active = list_to_set (mobility_cases p))
  ∧ (∀ rate total, res.2 !! rate = Some total →
       dom total = list_to_set (mobility_cases p))
  ∧ peak_cases (trace (pipeline p))
    = reporting_rates p ≫= (λ _, mobility_cases p).
Proof.
  intros Hres.
  destruct (pipeline_Ok_inv _ _ Hres) as (loaded & date0 & Hload & _ & Heq).
  pose proof Hres as Hres'. rewrite Heq in Hres'.
  apply pipeline_loop_keys in Hres' as (Hd1 & Hd2 & Hpeaks).
  cbn [fst snd] in Hd1, Hd2. rewrite dom_empty_L in Hd1, Hd2.
  rewrite Heq. split_and!; [set_solver|set_solver| | |done].
  - intros rate active Ha.
    destruct (pipeline_entries _ _ _ rate Hres Hload)
      as [[Hnone _]|(model & dates & a & t & Hf & Ha' & _)]; [congruence|].
    rewrite Ha in Ha'. injection Ha' as <-.
    by apply forecast_one_entry_per_case_aux in Hf as (? & _).
  - intros rate total Ht.
    destruct (pipeline_entries _ _ _ rate Hres Hload)
      as [[_ Hnone]|(model & dates & a & t & Hf & _ & Ht')]; [congruence|].
    rewrite Ht in Ht'. injection Ht' as <-.
    by apply forecast_one_entry_per_case_aux in Hf as (_ & ? & _).
Qed.

(** X9: when [pipeline] returns, both dicts have exactly the configured
    reporting rates as keys, every dict stored under a rate has exactly the
    configured mobility cases as keys, and the peak lines printed are, for
    every configured rate in order, one line for every configured case in
    order. *)
Theorem pipeline_one_forecast_per_rate p res :
  outcome (pipeline p) = Ok res →
  dom res.1 = list_to_set (reporting_rates p)
  ∧ dom res.2 = list_to_set (reporting_rates p)
  ∧ (∀ rate active, res.1 !! rate = Some active →
       dom active = list_to_set (mobility_cases p))
  ∧ (∀ rate total, res.2 !! rate = Some total →
       dom total = list_to_set (mobility_cases p))
  ∧ peak_cases (trace (pipeline p))
    = reporting_rates p ≫= (λ _, mobility_cases p).
Proof. apply pipeline_keys_aux. Qed.

End Entries.

(** ** When the pipeline returns *)

Section Returns.

Context `{C : Collaborators}.

Lemma for_each_returns {A S} (l : list A) (body : A → S → Run S) s :
  (∀ x s0, x ∈ l → ∃ s1, outcome (body x s0) = Ok s1) →
  ∃ s', outcome (for_each l body s) = Ok s'.
Proof.
  revert s. induction l as [|x l IH]; intros s Hbody; [by eexists|].
  destruct (Hbody x s) as [s1 H1]; [by left|].
  destruct (IH s1) as [s' Hs']; [intros ???; apply Hbody; by right|].
  exists s'. rewrite for_each_cons. apply outcome_bind_Ok. eauto.
Qed.

Lemma scenario_input_Ok (X : Tensor3) p case :
  (0 ≤ forecast_days p)%Z →
  ∃ rX, scenario_input X p case = Ok rX
        ∧ length rX = length X + Z.to_nat (forecast_days p).
Proof.
  intros HF. unfold scenario_input, scenario_cat.
  rewrite (proj2 (Z.ltb_ge _ _) HF). simpl. eexists. split; [done|].
  by rewrite length_mask_overwrite, length_app, length_replicate.
Qed.

Lemma forecast_case_returns X model dates sf p case st :
  (0 ≤ forecast_days p)%Z →
  (∀ rX, length rX = length X + Z.to_nat (forecast_days p) →
         0 < length (run model rX) ≤ length dates) →
  ∃ st', outcome (forecast_case X model dates sf p case st) = Ok st'.
Proof.
  intros HF Hrun. destruct st as [active total].
  destruct (scenario_input_Ok X p case HF) as (rX & HrX & Hlen).
  unfold forecast_case. rewrite (outcome_lift_bind _ _ rX HrX).
  destruct (report_peak_spec case
              ((λ d, (infectious d * sf)%Qc) <$> run model rX) dates)
    as (v & k & d & Hrep & _).
  { intros Hnil%(f_equal length). rewrite length_fmap in Hnil.
    simpl in Hnil. specialize (Hrun rX Hlen). lia. }
  { rewrite length_fmap. specialize (Hrun rX Hlen). lia. }
  eexists. apply outcome_bind_Ok. exists tt. by rewrite Hrep.
Qed.

Lemma forecast_returns_if X model dates sf p :
  (0 ≤ forecast_days p)%Z →
  (∀ rX, length rX = length X + Z.to_nat (forecast_days p) →
         0 < length (run model rX) ≤ length dates) →
  ∃ st, outcome (forecast X model dates sf p) = Ok st.
Proof.
  intros HF Hrun. unfold forecast. apply for_each_returns.
  intros case st _. by apply forecast_case_returns.
Qed.

Lemma forecast_returns X model dates sf p :
  (0 ≤ forecast_days p)%Z →
  0 < length X + Z.to_nat (forecast_days p) →
  length X + Z.to_nat (forecast_days p) ≤ length dates →
  (∀ m rX, length (run m rX) = length rX) →
  ∃ st, outcome (forecast X model dates sf p) = Ok st.
Proof.
  intros HF Hpos Hdates Hrun. apply forecast_returns_if; [done|].
  intros rX HrX. rewrite Hrun. lia.
Qed.

Lemma length_pipeline_dates p loaded date0 :
  length (pipeline_dates p loaded date0)
  = Z.to_nat (Z.of_nat (length (mobility loaded)) + forecast_days p).
Proof. unfold pipeline_dates. by rewrite length_fmap, length_seq. Qed.

Lemma pipeline_loop_returns_if p loaded date0 rates st :
  (0 ≤ forecast_days p)%Z →
  (∀ rate rX,
     length rX = length (mobility loaded) + Z.to_nat (forecast_days p) →
     0 < length (run (fitted_model p loaded rate) rX)
       ≤ length (mobility loaded) + Z.to_nat (forecast_days p)) →
  ∃ st', outcome (for_each rates
                    (pipeline_rate p loaded (pipeline_dates p loaded date0)) st)
         = Ok st'.
Proof.
  intros HF Hrun. apply for_each_returns. intros rate [actives totals] _.
  destruct (forecast_returns_if (add_batch (mobility loaded))
              (fitted_model p loaded rate) (pipeline_dates p loaded date0)
              (Qc_of_Z (population loaded) * rate)%Qc p) as [[active total] Hf].
  - done.
  - intros rX HrX. unfold add_batch in HrX. rewrite length_fmap in HrX.
    rewrite length_pipeline_dates. specialize (Hrun rate rX HrX). lia.
  - eexists. apply pipeline_rate_Ok. exists active, total. split; [|done].
    unfold calibrate_and_forecast. apply outcome_bind_Ok.
    eexists. split; [apply model_and_fit_outcome|exact Hf].
Qed.

Lemma pipeline_loop_returns p loaded date0 rates st :
  (0 ≤ forecast_days p)%Z →
  (0 < Z.of_nat (length (mobility loaded)) + forecast_days p)%Z →
  (∀ m rX, length (run m rX) = length rX) →
  ∃ st', outcome (for_each rates
                    (pipeline_rate p loaded (pipeline_dates p loaded date0)) st)
         = Ok st'.
Proof.
  intros HF Hpos Hrun. apply pipeline_loop_returns_if; [done|].
  intros rate rX HrX. rewrite Hrun. lia.
Qed.

Lemma pipeline_returns_aux p :
  (0 < delay_days p)%Z → (0 ≤ start_model p)%Z →
  (0 < raw_length get_data p - delay_days p - start_model p)%Z →
  (0 ≤ forecast_days p)%Z →
  (∀ m rX, length (run m rX) = length rX) →
  (∀ rec, rec ∈ get_data (paramdict p) → ∃ date0, datetime (date rec) = Ok date0) →
  ∃ res, outcome (pipeline p) = Ok res.
Proof.
  intros Hd Hs Hn HF Hrun Hparse.
  destruct (load_data_returns get_data p Hd Hs Hn) as [loaded Hload].
  destruct (load_data_lengths get_data p loaded Hd Hs Hn Hload) as [Hlen _].
  destruct (load_data_Ok_inv _ _ _ Hload) as (_ & _ & _ & _ & Hd0 & _).
  apply loc_Ok in Hd0 as [_ Hd0]. rewrite list_lookup_fmap in Hd0.
  apply fmap_Some in Hd0 as (rec & Hrec & Hday0).
  destruct (Hparse rec) as [date0 Hdate]; [by eapply list_elem_of_lookup_2|].
  rewrite <-Hday0 in Hdate.
  rewrite (pipeline_unfold _ _ _ Hload Hdate).
  apply pipeline_loop_returns; [done|lia|done].
Qed.


(** ** A negative forecast horizon *)

Lemma Run_bind_unfold {A B} (m : Run A) (f : A → Run B) :
  m ≫= f
  = mkRun (trace m ++ match outcome m with Ok a => trace (f a) | Raise _ => [] end)
          (match outcome m with Ok a => outcome (f a) | Raise e => Raise e end).
Proof.
  unfold mbind, Run_bind. destruct (outcome m); [done|by rewrite app_nil_r].
Qed.

Lemma forecast_negative_days X model dates sf p case cases :
  (forecast_days p < 0)%Z → mobility_cases p = case :: cases →
  forecast X model dates sf p = mkRun [] (Raise RuntimeError).
Proof.
  intros HF Hcases. unfold forecast. rewrite Hcases, for_each_cons.
  assert (scenario_input X p case = Raise RuntimeError) as Hscen.
  { unfold scenario_input, scenario_cat. by rewrite (proj2 (Z.ltb_lt _ _) HF). }
  rewrite Run_bind_unfold. unfold forecast_case. rewrite Hscen. done.
Qed.

Lemma pipeline_rate_negative_days p loaded dates rate st case cases :
  (forecast_days p < 0)%Z → mobility_cases p = case :: cases →
  pipeline_rate p loaded dates rate st
  = mkRun [Spec.calibration p loaded rate] (Raise RuntimeError).
Proof.
  intros HF Hcases. destruct st as [actives totals].
  unfold pipeline_rate, calibrate_and_forecast.
  rewrite !Run_bind_unfold, !model_and_fit_outcome.
  rewrite !(forecast_negative_days _ _ _ _ _ _ _ HF Hcases).
  cbn [trace outcome]. by rewrite !app_nil_r.
Qed.

(** X11: a negative [forecast_days] is noticed only inside the first
    forecast: once [load_data] has returned and [day0] has been parsed, with
    at least one reporting rate and one mobility case configured, [pipeline]
    runs the fit of the first rate and then raises RuntimeError, having
    printed no peak and stored nothing. *)
Theorem pipeline_negative_forecast_days p loaded date0 rate rates case cases :
  load_data get_data p = Ok loaded → datetime (day0 loaded) = Ok date0 →
  (forecast_days p < 0)%Z →
  reporting_rates p = rate :: rates → mobility_cases p = case :: cases →
  pipeline p = mkRun [Spec.calibration p loaded rate] (Raise RuntimeError).
Proof.
  intros Hload Hdate HF Hrates Hcases.
  rewrite (pipeline_unfold _ _ _ Hload Hdate), Hrates, for_each_cons.
  rewrite Run_bind_unfold.
  by rewrite (pipeline_rate_negative_days _ _ _ _ _ _ _ HF Hcases).
Qed.

End Returns.

(** ** The series and the date axis *)

Section Axis.

Context `{C : Collaborators}.

Lemma scenario_input_Ok_inv (X : Tensor3) p case rX :
  scenario_input X p case = Ok rX →
  (0 ≤ forecast_days p)%Z ∧ length rX = length X + Z.to_nat (forecast_days p).
Proof.
  unfold scenario_input, scenario_cat.
  destruct (Z.ltb_spec (forecast_days p) 0) as [HF|HF]; [done|].
  simpl. intros [= <-]. split; [done|].
  by rewrite length_mask_overwrite, length_app, length_replicate.
Qed.

(** X12: when the model returns one state per day of its input, every
    series that [pipeline] stores has one entry per date of the date axis
    that is handed to the plot: the days of the aligned history followed by
    [forecast_days] days. *)
Theorem pipeline_series_on_date_axis p res loaded date0 rate case
    active_r total_r a tt :
  (∀ m rX, length (run m rX) = length rX) →
  outcome (pipeline p) = Ok res → load_data get_data p = Ok loaded →
  res.1 !! rate = Some active_r → res.2 !! rate = Some total_r →
  active_r !! case = Some a → total_r !! case = Some tt →
  length a = length (mobility loaded) + Z.to_nat (forecast_days p)
  ∧ length tt = length (mobility loaded) + Z.to_nat (forecast_days p)
  ∧ length (pipeline_dates p loaded date0)
    = length (mobility loaded) + Z.to_nat (forecast_days p).
Proof.
  intros Hrun Hres Hload Har Htr Ha Ht.
  destruct (pipeline_entries _ _ _ rate Hres Hload)
    as [[Hnone _]|(model & dates & active & total & Hf & Har' & Htr')];
    [congruence|].
  rewrite Har in Har'. rewrite Htr in Htr'.
  injection Har' as <-. injection Htr' as <-.
  destruct (forecast_entries _ _ _ _ _ _ _ case Hf)
    as [[Hnone _]|(rX & HrX & Ha' & Ht')]; [congruence|].
  rewrite Ha in Ha'. rewrite Ht in Ht'. injection Ha' as ->. injection Ht' as ->.
  apply scenario_input_Ok_inv in HrX as [HF HrX].
  unfold add_batch in HrX. rewrite length_fmap in HrX.
  rewrite !length_fmap, Hrun, HrX, length_pipeline_dates.
  split_and!; [done..|lia].
Qed.

Lemma report_peak_on_axis case active date0 n :
  Forall (peak_on_axis date0 n)
    (trace (report_peak case active
              ((λ d, plus_days date0 (Z.of_nat d)) <$> seq 0 n))).
Proof.
  unfold report_peak.
  apply trace_bind_Forall; [by constructor|]. intros v.
  apply trace_bind_Forall; [by constructor|]. intros k.
  unfold item. destruct (_ !! k) as [d|] eqn:Hd; [|by constructor].
  rewrite (outcome_lift_bind _ _ d eq_refl). repeat constructor.
  - apply lookup_lt_Some in Hd. by rewrite length_fmap, length_seq in Hd.
  - rewrite list_lookup_fmap in Hd.
    apply fmap_Some in Hd as (i & [-> _]%lookup_seq & ->). done.
Qed.

(** X13: every peak line that [pipeline] prints names a day of the date
    axis, and the date printed with it is [day0] plus that number of
    days. *)
Theorem pipeline_peaks_on_date_axis p loaded date0 :
  load_data get_data p = Ok loaded → datetime (day0 loaded) = Ok date0 →
  Forall (peak_on_axis date0
            (Z.to_nat (Z.of_nat (length (mobility loaded)) + forecast_days p)))
    (trace (pipeline p)).
Proof.
  intros Hload Hdate. rewrite (pipeline_unfold _ _ _ Hload Hdate).
  apply for_each_trace_Forall. intros rate [actives totals].
  unfold pipeline_rate.
  apply trace_bind_Forall; [|intros [??]; by constructor].
  unfold calibrate_and_forecast.
  apply trace_bind_Forall; [by repeat constructor|]. intros model.
  unfold forecast. apply for_each_trace_Forall. intros case [active total].
  unfold forecast_case.
  apply trace_bind_Forall; [by constructor|]. intros rX.
  apply trace_bind_Forall; [|by constructor].
  apply report_peak_on_axis.
Qed.

End Axis.

(** ** A fit that reproduces its targets *)

Section PerfectFit.

Context `{C : Collaborators}.


End PerfectFit.

(** ** The name of the county *)

Lemma length_lower s : String.length (lower s) = String.length s.
Proof. induction s as [|c s IH]; simpl; [done|by rewrite IH]. Qed.

Lemma lower_app s u : lower (s +:+ u) = lower s +:+ lower u.
Proof. induction s as [|c s IH]; simpl; [done|by rewrite IH]. Qed.

Lemma string_length_app s u :
  String.length (s +:+ u) = String.length s + String.length u.
Proof. induction s as [|c s IH]; simpl; [done|by rewrite IH]. Qed.

Lemma substring_all s : String.substring 0 (String.length s) s = s.
Proof. induction s as [|c s IH]; simpl; [done|by rewrite IH]. Qed.

Lemma substring_app_l s u :
  String.substring 0 (String.length s) (s +:+ u) = s.
Proof. induction s as [|c s IH]; simpl; [by destruct u|by rewrite IH]. Qed.

Lemma substring_app_r s u :
  String.substring (String.length s) (String.length u) (s +:+ u) = u.
Proof. induction s as [|c s IH]; simpl; [apply substring_all|done]. Qed.

Lemma substring_split n s :
  n ≤ String.length s →
  String.substring 0 n s +:+ String.substring n (String.length s - n) s = s.
Proof.
  revert s. induction n as [|n IH]; intros s Hn.
  - rewrite Nat.sub_0_r, substring_all. by destruct s.
  - destruct s as [|c s]; simpl in *; [lia|].
    transitivity (String c (String.substring 0 n s
                            +:+ String.substring n (String.length s - n) s));
      [done|]. f_equal. apply IH. lia.
Qed.

Lemma lower_substring n m s :
  lower (String.substring n m s) = String.substring n m (lower s).
Proof.
  revert n m. induction s as [|c s IH]; intros [|n] [|m]; simpl;
    first [done|apply IH|by rewrite IH].
Qed.

Lemma endswith_app s u : endswith (s +:+ u) u = true.
Proof.
  unfold endswith. rewrite string_length_app.
  rewrite bool_decide_eq_true_2 by lia.
  replace (String.length s + String.length u - String.length u)
    with (String.length s) by lia.
  rewrite substring_app_r. apply String.eqb_refl.
Qed.

(** X15: a county name that ends in " county", in whatever mix of upper and
    lower case, loses exactly that suffix; and in every case the name used
    for the weights file is the configured county with at most such a
    suffix taken off. *)
Theorem county_name_suffix p :
  (∀ s u, county p = s +:+ u → lower u = " county" → county_name p = s)
  ∧ ∃ u, county p = county_name p +:+ u ∧ (u = "" ∨ lower u = " county").
Proof.
  split.
  - intros s u Hc Hu. unfold county_name. rewrite Hc, lower_app, Hu.
    rewrite endswith_app. unfold drop_last. rewrite string_length_app.
    replace (String.length u) with (String.length " county")
      by by rewrite <-Hu, length_lower.
    replace (String.length s + String.length " county" - String.length " county")
      with (String.length s) by lia.
    apply substring_app_l.
  - unfold county_name.
    destruct (endswith (lower (county p)) " county") eqn:Hend.
    + unfold endswith in Hend. apply andb_true_iff in Hend as [Hlen Heq].
      apply bool_decide_eq_true in Hlen. apply String.eqb_eq in Heq.
      rewrite length_lower in Hlen, Heq.
      exists (String.substring (String.length (county p) - String.length " county")
                (String.length " county") (county p)).
      split; [|right; by rewrite lower_substring].
      unfold drop_last.
      rewrite <-(substring_split
                   (String.length (county p) - String.length " county")
                   (county p)) at 1 by lia.
      do 2 f_equal. lia.
    + exists "". split; [|by left].
      generalize (county p). intros s. induction s as [|c s IH]; [done|].
      change (String c s = String c (s +:+ "")). by rewrite <-IH.
Qed.

(** ** Runs that call no fit *)

Section NoFit.

Context `{C : Collaborators}.


End NoFit.

(** ** The statements above on concrete runs *)

Section Lookups.

Context `{C : Collaborators}.

(** Under a configured rate and a configured case, a run that returns has
    stored an active and a total series. *)
Lemma pipeline_lookup_entries p res rate case :
  outcome (pipeline p) = Ok res →
  rate ∈ reporting_rates p → case ∈ mobility_cases p →
  ∃ active_r total_r a tt,
    res.1 !! rate = Some active_r ∧ res.2 !! rate = Some total_r
    ∧ active_r !! case = Some a ∧ total_r !! case = Some tt.
Proof.
  intros Hres Hrate Hcase.
  destruct (pipeline_keys_aux _ _ Hres) as (Hd1 & Hd2 & Hk1 & Hk2 & _).
  assert (is_Some (res.1 !! rate)) as [active_r Har].
  { apply elem_of_dom. rewrite Hd1. by apply elem_of_list_to_set. }
  assert (is_Some (res.2 !! rate)) as [total_r Htr].
  { apply elem_of_dom. rewrite Hd2. by apply elem_of_list_to_set. }
  assert (is_Some (active_r !! case)) as [a Ha].
  { apply elem_of_dom. rewrite (Hk1 _ _ Har). by apply elem_of_list_to_set. }
  assert (is_Some (total_r !! case)) as [tt Ht].
  { apply elem_of_dom. rewrite (Hk2 _ _ Htr). by apply elem_of_list_to_set. }
  by exists active_r, total_r, a, tt.
Qed.

End Lookups.

Lemma toy_run_length df (m : @Model (toy df)) rX :
  length (run (Collaborators := toy df) m rX) = length rX.
Proof. apply length_fmap. Qed.

Lemma toy_datetime df :
  ∀ rec, rec ∈ @get_data (toy df) (paramdict default_params) →
    ∃ date0, datetime (Collaborators := toy df) (date rec) = Ok date0.
Proof. intros rec _. by eexists. Qed.

Lemma toy_pipeline_returns :
  ∃ res, outcome (pipeline (C := toy (frame_of_length 40)) default_params) = Ok res.
Proof.
  apply (pipeline_returns_aux (C := toy (frame_of_length 40)) default_params);
    [simpl; lia|simpl; lia|reflexivity|simpl; lia|apply toy_run_length
    |apply toy_datetime].
Qed.


Lemma pipeline_total_ge_active_witness :
  (∀ model rX d, d ∈ @run (toy frame3) model rX → (0 ≤ removed d)%Qc)
  ∧ (∀ rate, rate ∈ reporting_rates (config 1 0 true 1) → (0 ≤ rate)%Qc)
  ∧ (∀ rec, rec ∈ frame3 → (0 < Population rec)%Z)
  ∧ ∃ res loaded active_r total_r active total rX,
      outcome (pipeline (C := toy frame3) (config 1 0 true 1)) = Ok res
      ∧ load_data (λ _, frame3) (config 1 0 true 1) = Ok loaded
      ∧ res.1 !! Q2Qc (1 # 10) = Some active_r
      ∧ res.2 !! Q2Qc (1 # 10) = Some total_r
      ∧ active_r !! Qc_of_Z 50 = Some active
      ∧ total_r !! Qc_of_Z 50 = Some total
      ∧ active
        = (λ d, infectious d
                * Spec.ScaleFactor (population loaded) (Q2Qc (1 # 10)))%Qc
            <$> run (fitted_model (C := toy frame3) (config 1 0 true 1) loaded
                       (Q2Qc (1 # 10))) rX
      ∧ total
        = (λ d, (infectious d + removed d)
                * Spec.ScaleFactor (population loaded) (Q2Qc (1 # 10)))%Qc
            <$> run (fitted_model (C := toy frame3) (config 1 0 true 1) loaded
                       (Q2Qc (1 # 10))) rX
      ∧ length active = 4
      ∧ ∀ t x y, active !! t = Some x → total !! t = Some y → (x ≤ y)%Qc.
Proof.
  assert (∀ model rX d, d ∈ @run (toy frame3) model rX → (0 ≤ removed d)%Qc) as H1.
  { intros model rX d (_ & -> & _)%list_elem_of_fmap. apply Qc_max_nonneg. }
  assert (∀ rate, rate ∈ reporting_rates (config 1 0 true 1) → (0 ≤ rate)%Qc) as H2.
  { intros rate ->%list_elem_of_singleton. by vm_compute. }
  assert (∀ rec, rec ∈ frame3 → (0 < Population rec)%Z) as H3.
  { intros rec Hrec. repeat (apply elem_of_cons in Hrec as [->|Hrec]; [done|]).
    by apply elem_of_nil in Hrec. }
  split; [exact H1|]. split; [exact H2|]. split; [exact H3|].
  destruct (pipeline_returns_aux (C := toy frame3) (config 1 0 true 1))
    as [res Hres];
    [simpl; lia|simpl; lia|reflexivity|simpl; lia|apply toy_run_length
    |intros rec _; by eexists|].
  destruct (pipeline_lookup_entries (C := toy frame3) (config 1 0 true 1) res
              (Q2Qc (1 # 10)) (Qc_of_Z 50) Hres)
    as (active_r & total_r & active & total & Har & Htr & Ha & Ht);
    [apply list_elem_of_singleton; reflexivity..|].
  destruct (pipeline_total_ge_active (C := toy frame3) (config 1 0 true 1) res
              H1 H2 H3 Hres) as (loaded & Hload & Hall).
  destruct (Hall _ _ _ _ _ _ Har Htr Ha Ht) as (rX & HrX & Hact & Htot & _ & Hle).
  exists res, loaded, active_r, total_r, active, total, rX.
  split; [exact Hres|]. split; [exact Hload|]. split; [exact Har|].
  split; [exact Htr|]. split; [exact Ha|]. split; [exact Ht|].
  split; [exact Hact|]. split; [exact Htot|]. split; [|exact Hle].
  apply scenario_input_Ok_inv in HrX as [_ HrX].
  destruct (load_data_lengths (λ _, frame3) (config 1 0 true 1) loaded)
    as [Hm _]; [simpl; lia|simpl; lia|reflexivity|exact Hload|].
  rewrite Hact, length_fmap, toy_run_length, HrX.
  unfold add_batch. rewrite length_fmap.
  change (raw_length (λ _, frame3) (config 1 0 true 1)
          - delay_days (config 1 0 true 1) - start_model (config 1 0 true 1))%Z
    with 2%Z in Hm.
  change (forecast_days (config 1 0 true 1)) with 2%Z. lia.
Defined.

Lemma forecast_one_entry_per_case_witness :
  ∃ active total,
    outcome (forecast (C := toy frame3) [[[1; 1; 1; 1; 1; 0]]]%Qc
               (Q2Qc (1 # 10), Q2Qc (2 # 10))
               ((λ d, ("2020-03-02", Z.of_nat d)) <$> seq 0 201)
               (Qc_of_Z 100) default_params)
    = Ok (active, total)
    ∧ dom active = list_to_set [Qc_of_Z 25; Qc_of_Z 50; Qc_of_Z 75; Qc_of_Z 100]
    ∧ peak_cases
        (trace (forecast (C := toy frame3) [[[1; 1; 1; 1; 1; 0]]]%Qc
                  (Q2Qc (1 # 10), Q2Qc (2 # 10))
                  ((λ d, ("2020-03-02", Z.of_nat d)) <$> seq 0 201)
                  (Qc_of_Z 100) default_params))
      = [Qc_of_Z 25; Qc_of_Z 50; Qc_of_Z 75; Qc_of_Z 100].
Proof.
  destruct (forecast_returns (C := toy frame3) [[[1; 1; 1; 1; 1; 0]]]%Qc
              (Q2Qc (1 # 10), Q2Qc (2 # 10))
              ((λ d, ("2020-03-02", Z.of_nat d)) <$> seq 0 201)
              (Qc_of_Z 100) default_params) as [[active total] Hf];
    [simpl; lia|simpl; lia|rewrite length_fmap, length_seq; simpl; lia
    |apply toy_run_length|].
  destruct (forecast_one_entry_per_case (C := toy frame3) _ _ _ _ _ _ _ Hf)
    as (Ha & _ & Hp).
  exists active, total. split; [exact Hf|]. split; [exact Ha|exact Hp].
Defined.

Lemma forecast_total_minus_active_witness :
  ∃ active total a tt,
    outcome (forecast (C := toy frame3) [[[1; 1; 1; 1; 1; 0]]]%Qc
               (Q2Qc (1 # 10), Q2Qc (2 # 10))
               ((λ d, ("2020-03-02", Z.of_nat d)) <$> seq 0 201)
               (Qc_of_Z 100) default_params)
    = Ok (active, total)
    ∧ active !! Qc_of_Z 50 = Some a ∧ total !! Qc_of_Z 50 = Some tt
    ∧ length a = 201 ∧ length tt = 201
    ∧ a !! 7 = Some (Q2Qc (2 # 10) * Qc_of_Z 100)%Qc
    ∧ tt !! 7 = Some (Q2Qc (2 # 10) * Qc_of_Z 100
                      + Qc_max 0 (Q2Qc (1 # 10)) * Qc_of_Z 100)%Qc.
Proof.
  destruct (forecast_returns (C := toy frame3) [[[1; 1; 1; 1; 1; 0]]]%Qc
              (Q2Qc (1 # 10), Q2Qc (2 # 10))
              ((λ d, ("2020-03-02", Z.of_nat d)) <$> seq 0 201)
              (Qc_of_Z 100) default_params) as [[active total] Hf];
    [simpl; lia|simpl; lia|rewrite length_fmap, length_seq; simpl; lia
    |apply toy_run_length|].
  destruct (forecast_one_entry_per_case_aux (C := toy frame3) _ _ _ _ _ _ Hf)
    as (Hda & Hdt & _).
  cbn [fst snd] in Hda, Hdt.
  assert (Qc_of_Z 50 ∈ mobility_cases default_params) as Hin.
  { right. left. }
  assert (is_Some (active !! Qc_of_Z 50)) as [a Ha].
  { apply elem_of_dom. rewrite Hda. apply elem_of_list_to_set. exact Hin. }
  assert (is_Some (total !! Qc_of_Z 50)) as [tt Ht].
  { apply elem_of_dom. rewrite Hdt. apply elem_of_list_to_set. exact Hin. }
  destruct (forecast_total_minus_active (C := toy frame3) _ _ _ _ _ _ _ _ _ _ Hf Ha Ht)
    as (rX & HrX & Hla & Hlt & Hdays).
  apply scenario_input_Ok_inv in HrX as [_ HrX].
  rewrite toy_run_length in Hla, Hlt.
  change (length rX = 201) in HrX.
  assert (is_Some (rX !! 7)) as [x Hx].
  { apply lookup_lt_is_Some. rewrite HrX. lia. }
  destruct (Hdays 7 {| infectious := Q2Qc (2 # 10);
                       removed := Qc_max 0 (Q2Qc (1 # 10)) |}) as [Ha7 Ht7].
  { change (((λ _, {| infectious := Q2Qc (2 # 10);
                     removed := Qc_max 0 (Q2Qc (1 # 10)) |}) <$> rX) !! 7
            = Some {| infectious := Q2Qc (2 # 10);
                      removed := Qc_max 0 (Q2Qc (1 # 10)) |}).
    by rewrite list_lookup_fmap, Hx. }
  exists active, total, a, tt.
  split; [exact Hf|]. split; [exact Ha|]. split; [exact Ht|].
  split; [by rewrite Hla|]. split; [by rewrite Hlt|]. split; [exact Ha7|exact Ht7].
Defined.

Lemma pipeline_one_forecast_per_rate_witness :
  ∃ res,
    outcome (pipeline (C := toy (frame_of_length 40)) default_params) = Ok res
    ∧ dom res.1 = list_to_set [Q2Qc (5 # 100); Q2Qc (1 # 10); Q2Qc (3 # 10)]
    ∧ length (peak_cases (trace (pipeline (C := toy (frame_of_length 40))
                                   default_params))) = 12.
Proof.
  destruct toy_pipeline_returns as [res Hres].
  destruct (pipeline_one_forecast_per_rate (C := toy (frame_of_length 40))
              default_params res Hres) as (Hd & _ & _ & _ & Hp).
  exists res. split; [exact Hres|]. split; [exact Hd|]. rewrite Hp. reflexivity.
Defined.


Lemma pipeline_negative_forecast_days_witness :
  (forecast_days (with_forecast_days (config 1 1 false 3) (-1)) < 0)%Z
  ∧ ∃ loaded,
      load_data (λ _, frame6) (with_forecast_days (config 1 1 false 3) (-1))
      = Ok loaded
      ∧ pipeline (C := toy frame6) (with_forecast_days (config 1 1 false 3) (-1))
        = mkRun [Spec.calibration (with_forecast_days (config 1 1 false 3) (-1))
                   loaded (Q2Qc (1 # 10))]
            (Raise RuntimeError).
Proof.
  split; [simpl; lia|].
  destruct (load_data_returns (λ _, frame6)
              (with_forecast_days (config 1 1 false 3) (-1)))
    as [loaded Hload]; [simpl; lia|simpl; lia|reflexivity|].
  exists loaded. split; [exact Hload|].
  apply (pipeline_negative_forecast_days (C := toy frame6)
           (with_forecast_days (config 1 1 false 3) (-1)) loaded
           (day0 loaded, 0%Z) (Q2Qc (1 # 10)) [] (Qc_of_Z 50) []);
    [exact Hload|reflexivity|simpl; lia|reflexivity|reflexivity].
Defined.

Lemma pipeline_series_on_date_axis_witness :
  ∃ res active_r a,
    outcome (pipeline (C := toy (frame_of_length 40)) default_params) = Ok res
    ∧ res.1 !! Q2Qc (1 # 10) = Some active_r
    ∧ active_r !! Qc_of_Z 50 = Some a
    ∧ length a = 207.
Proof.
  destruct toy_pipeline_returns as [res Hres].
  destruct (pipeline_Ok_inv _ _ Hres) as (loaded & date0 & Hload & _ & _).
  destruct (pipeline_lookup_entries _ _ (Q2Qc (1 # 10)) (Qc_of_Z 50) Hres)
    as (active_r & total_r & a & tt & Har & Htr & Ha & Ht);
    [right; left|right; left|].
  destruct (pipeline_series_on_date_axis (C := toy (frame_of_length 40))
              default_params res loaded date0 _ _ _ _ _ _
              (toy_run_length _) Hres Hload Har Htr Ha Ht) as (Hla & _ & _).
  destruct (load_data_lengths (λ _, frame_of_length 40) default_params loaded)
    as [Hm _]; [simpl; lia|simpl; lia|reflexivity|exact Hload|].
  exists res, active_r, a.
  split; [exact Hres|]. split; [exact Har|]. split; [exact Ha|].
  rewrite Hla.
  change (raw_length (λ _, frame_of_length 40) default_params
          - delay_days default_params - start_model default_params)%Z
    with 7%Z in Hm.
  change (forecast_days default_params) with 200%Z. lia.
Defined.

Lemma pipeline_peaks_on_date_axis_witness :
  ∃ loaded,
    load_data (λ _, frame6) (config 1 1 false 3) = Ok loaded
    ∧ Forall (peak_on_axis (C := toy frame6) (day0 loaded, 0%Z)
                (Z.to_nat (Z.of_nat (length (mobility loaded)) + 2)))
        (trace (pipeline (C := toy frame6) (config 1 1 false 3))).
Proof.
  destruct (load_data_returns (λ _, frame6) (config 1 1 false 3))
    as [loaded Hload]; [simpl; lia|simpl; lia|reflexivity|].
  exists loaded. split; [exact Hload|].
  exact (pipeline_peaks_on_date_axis (C := toy frame6) (config 1 1 false 3)
           loaded (day0 loaded, 0%Z) Hload eq_refl).
Defined.


